(** * Category Recommendation Dashboard: the recommendation engine of app.py

    A shallow embedding of [src/app.py]: the four aggregate queries, the
    cleaning and rounding of the category table, the top-30 / gap /
    Domain computation, and the page script with its early stops.

    Modelling conventions.
    - A DataFrame is a list of rows, in row order.  A nullable text cell is
      an [option string]; Python [None] and SQL [NULL] are [None].
    - Numbers are exact rationals ([Q]) and integers ([Z]); the machine
      arithmetic of the database and of pandas is not modelled.
    - A calendar date is its day number ([Z]).
    - SQL text equality is exact equality of strings.
    - The sort of pandas and the database engine are not in the source;
      what the source does not fix of them is a parameter ([Sorter],
      [Engine]). *)

From Stdlib Require Import List String Ascii Bool ZArith QArith Lia.
From Stdlib Require Import Sorting.Sorted Sorting.Permutation.
Import ListNotations.
Local Open Scope string_scope.
Local Open Scope list_scope.
Local Open Scope Z_scope.

(** ** Cells and text *)

Definition cell := option string.

Definition cell_eqb (a b : cell) : bool :=
  match a, b with
  | Some x, Some y => String.eqb x y
  | None, None => true
  | _, _ => false
  end.

(** Python's [x in xs] on a list of cell values. *)
Definition py_in (x : cell) (xs : list cell) : bool := existsb (cell_eqb x) xs.

(** [str.lower()], on the ASCII letters: the only characters whose lower
    case is one of the letters of the word compared against below. *)
Definition lower_ascii (c : ascii) : ascii :=
  let n := N_of_ascii c in
  if ((65 <=? n) && (n <=? 90))%N then ascii_of_N (n + 32) else c.

Fixpoint lower (s : string) : string :=
  match s with
  | EmptyString => EmptyString
  | String c s' => String (lower_ascii c) (lower s')
  end.

(** [Series.dropna()] on a column of cells. *)
Definition dropna (xs : list cell) : list cell :=
  filter (fun c => match c with Some _ => true | None => false end) xs.

(** [Series.unique()] / SQL [DISTINCT]: first occurrences, in order. *)
Fixpoint unique_from {A : Type} (eqb : A -> A -> bool) (seen l : list A) : list A :=
  match l with
  | [] => []
  | x :: xs =>
      if existsb (eqb x) seen then unique_from eqb seen xs
      else x :: unique_from eqb (x :: seen) xs
  end.

Definition unique {A : Type} (eqb : A -> A -> bool) (l : list A) : list A :=
  unique_from eqb [] l.

(** ** Numbers *)

Definition Qltb (a b : Q) : bool :=
  match (a ?= b)%Q with Lt => true | _ => false end.

(** Nearest integer, halves to the even neighbour (numpy's [rint]). *)
Definition rint (q : Q) : Z :=
  let n := Qnum q in
  let d := Z.pos (Qden q) in
  let f := n / d in
  match (2 * (n mod d) ?= d) with
  | Lt => f
  | Gt => f + 1
  | Eq => if Z.even f then f else f + 1
  end.

(** [round(2)] on one number. *)
Definition round2 (q : Q) : Q := Qmake (rint (q * 100)) 100.

Definition Qsum (l : list Q) : Q := fold_right Qplus 0%Q l.
Definition Zsum (l : list Z) : Z := fold_right Z.add 0 l.

(** SQL [NULLIF(x, 0)] and [/] with a nullable divisor; [/] is taken as
    the fractional division, whatever the operand types. *)
Definition NULLIF0 (x : Z) : option Z := if x =? 0 then None else Some x.

Definition sql_div (a : Q) (b : option Z) : option Q :=
  match b with
  | None => None
  | Some d => Some (a / inject_Z d)%Q
  end.

(** ** Data model *)

(** Modelled from the spec: the schema of the event table
    [team_block_stats], which is not declared in the source (section 6:
    eventDate, nullable category and Conceptual_Group, partner,
    est_earnings, uniq_impr, paid_clicks). *)
Record Event := mkEvent {
  eventDate : Z;
  ev_category : cell;
  ev_Conceptual_Group : cell;
  partner : string;
  est_earnings : Q;
  uniq_impr : Z;
  paid_clicks : Z
}.

(** A row of the frame returned by [fetch_category_data]. *)
Record CategoryAggregate := mkRow {
  Conceptual_Group : cell;
  category : cell;
  total_earnings : option Q;
  avg_earnings : Q;
  total_impressions : Z;
  EPI : option Q;
  CTR : option Q
}.

Inductive DomainLabel := In_Domain | Out_of_Domain.

(** A row of [recommended_df]: the columns of [category_df] and [Domain]. *)
Record RecommendationEntry := mkEntry {
  aggregate : CategoryAggregate;
  Domain : DomainLabel
}.

(** ** Ordering by total_earnings, descending *)

(** [key_lt a b]: [a] sorts strictly below [b]; nulls are lowest, so that
    they come last in descending order. *)
Definition key_lt (a b : option Q) : bool :=
  match a, b with
  | Some x, Some y => Qltb x y
  | None, Some _ => true
  | _, _ => false
  end.

Section SortDesc.
Context {A : Type} (key : A -> option Q).

Fixpoint insert_desc (r : A) (l : list A) : list A :=
  match l with
  | [] => [r]
  | x :: xs =>
      if key_lt (key r) (key x) then x :: insert_desc r xs
      else r :: x :: xs
  end.

(** Descending sort; rows with equal keys keep their order. *)
Fixpoint sort_desc (l : list A) : list A :=
  match l with
  | [] => []
  | r :: rest => insert_desc r (sort_desc rest)
  end.

(** No row is followed by a row with a strictly larger key. *)
Definition descending (l : list A) : Prop :=
  StronglySorted (fun a b => key_lt (key a) (key b) = false) l.
End SortDesc.

(** ** The sort of pandas *)

(** [sort_values(..., ascending=False)] with the default [kind]: the rows
    in descending order of the key, nulls last.  Which of several rows of
    equal key comes first is left to the sorting algorithm, and the
    default one does not keep them in place; so the sort is a parameter,
    and [sorts] is all that is assumed of it. *)
Definition Sorter : Type := forall A : Type, (A -> option Q) -> list A -> list A.

Definition sorts (sort_by : Sorter) : Prop :=
  forall (A : Type) (key : A -> option Q) (l : list A),
    Permutation (sort_by A key l) l /\ descending key (sort_by A key l).

(** A sort that leaves an already ranked table as it is. *)
Definition keeps_ranked (sort_by : Sorter) : Prop :=
  forall (A : Type) (key : A -> option Q) (l : list A),
    descending key l -> sort_by A key l = l.


(** Two sorts: one keeps rows of equal key in their order, the other
    puts them in the opposite order. *)
Definition stable_sort : Sorter := fun A key l => sort_desc key l.

Section SortReversing.
Context {A : Type} (key : A -> option Q).


End SortReversing.


(** ** The database engine *)

(** The partner queries splice the partner's name into the text of the
    query, between quotes ([partner = '{partner}']).  A name is a plain
    literal when none of its characters can end the literal, escape the
    next character or be a marker to the driver: no quote, no backslash,
    no percent sign, no control character.  The text is then the query
    as written, with the name as the string compared. *)
Definition plain_char (c : ascii) : bool :=
  negb (Ascii.eqb c "'"%char) && negb (Ascii.eqb c "\"%char) &&
  negb (Ascii.eqb c "%"%char) &&
  (32 <=? N_of_ascii c)%N && negb (N_of_ascii c =? 127)%N.

Fixpoint sql_plain (s : string) : bool :=
  match s with
  | EmptyString => true
  | String c s' => plain_char c && sql_plain s'
  end.

(** With any other name the text is another statement: the engine
    rejects it ([None]: [pd.read_sql] raises) or answers it with some
    rows.  The source does not say which; the answers are the engine's.
    The first is the frame of the partner-category query, the second the
    [Conceptual_Group] column of the partner-groups query.  The database
    is taken to be reachable: a rejected text is the only failure of a
    query that is modelled. *)
Record Engine := mkEngine {
  spliced_categories : list Event -> Z -> Z -> string -> option (list (cell * Q));
  spliced_groups : list Event -> Z -> Z -> string -> option (list cell)
}.

(** An engine that rejects every such text. *)
Definition rejecting_engine : Engine :=
  {| spliced_categories := fun _ _ _ _ => None;
     spliced_groups := fun _ _ _ _ => None |}.

(** An engine that answers every such text with no row. *)
Definition empty_answer_engine : Engine :=
  {| spliced_categories := fun _ _ _ _ => Some [];
     spliced_groups := fun _ _ _ _ => Some [] |}.

(** ** Aggregate query layer *)

Section Queries.
Variable engine : Engine.
Variable db : list Event.
Variables start_date end_date : Z.

(** [WHERE eventDate BETWEEN start AND end AND est_earnings > 0] *)
Definition in_window (ev : Event) : bool :=
  (start_date <=? eventDate ev) && (eventDate ev <=? end_date).

Definition positive_earnings (ev : Event) : bool := Qltb 0 (est_earnings ev).

Definition selected : list Event :=
  filter (fun ev => in_window ev && positive_earnings ev) db.

Definition key_eqb (k1 k2 : cell * cell) : bool :=
  cell_eqb (fst k1) (fst k2) && cell_eqb (snd k1) (snd k2).

Definition group_key (ev : Event) : cell * cell :=
  (ev_category ev, ev_Conceptual_Group ev).

(** The events of one [GROUP BY category, Conceptual_Group] group. *)
Definition group_of (k : cell * cell) : list Event :=
  filter (fun ev => key_eqb (group_key ev) k) selected.

Definition sum_earnings (g : list Event) : Q := Qsum (map est_earnings g).
Definition sum_impressions (g : list Event) : Z := Zsum (map uniq_impr g).
Definition sum_clicks (g : list Event) : Z := Zsum (map paid_clicks g).

Definition aggregate_group (k : cell * cell) : CategoryAggregate :=
  let g := group_of k in
  {| Conceptual_Group := snd k;
     category := fst k;
     total_earnings := Some (sum_earnings g);
     avg_earnings := (sum_earnings g / inject_Z (Z.of_nat (List.length g)))%Q;
     total_impressions := sum_impressions g;
     EPI := sql_div (sum_earnings g) (NULLIF0 (sum_impressions g));
     CTR := sql_div (inject_Z (sum_clicks g)) (NULLIF0 (sum_impressions g)) |}.

Definition fetch_category_data : list CategoryAggregate :=
  sort_desc total_earnings
    (map aggregate_group (unique key_eqb (map group_key selected))).

(** [SELECT DISTINCT category, partner] *)
Definition fetch_raw_data : list (cell * string) :=
  unique (fun a b => cell_eqb (fst a) (fst b) && String.eqb (snd a) (snd b))
    (map (fun ev => (ev_category ev, partner ev)) selected).

Variable the_partner : string.

(** The events that [partner = 'name'] keeps, for a plain name. *)
Definition selected_for_partner : list Event :=
  filter (fun ev => String.eqb (partner ev) the_partner) selected.

(** The rows of the partner-category query as written:
    [category IS NOT NULL], [GROUP BY category],
    [HAVING SUM(est_earnings) > 0]. *)
Definition partner_category_rows : list (cell * Q) :=
  let rows :=
    filter (fun ev => match ev_category ev with Some _ => true | None => false end)
      selected_for_partner in
  let total c :=
    Qsum (map est_earnings
            (filter (fun ev => cell_eqb (ev_category ev) c) rows)) in
  filter (fun p => Qltb 0 (snd p))
    (map (fun c => (c, total c)) (unique cell_eqb (map ev_category rows))).

(** The column of the partner-groups query as written:
    [SELECT DISTINCT Conceptual_Group ... IS NOT NULL]. *)
Definition partner_group_rows : list cell :=
  unique cell_eqb
    (map ev_Conceptual_Group
       (filter
          (fun ev =>
             match ev_Conceptual_Group ev with Some _ => true | None => false end)
          selected_for_partner)).

(** [fetch_partner_category_data]: the query as written when the name is
    a plain literal, else what the engine makes of the text. *)
Definition fetch_partner_category_data : option (list (cell * Q)) :=
  if sql_plain the_partner then Some partner_category_rows
  else spliced_categories engine db start_date end_date the_partner.

(** [fetch_partner_conceptual_groups]: the same, followed by
    [.dropna().unique().tolist()] on the column returned. *)
Definition fetch_partner_conceptual_groups : option (list cell) :=
  option_map (fun df => unique cell_eqb (dropna df))
    (if sql_plain the_partner then Some partner_group_rows
     else spliced_groups engine db start_date end_date the_partner).
End Queries.

(** ** Cleaning and rounding of [category_df] *)

(** [category_df.dropna(subset=["category", "total_earnings"])] *)
Definition dropna_rows (df : list CategoryAggregate) : list CategoryAggregate :=
  filter
    (fun r =>
       match category r, total_earnings r with
       | Some _, Some _ => true
       | _, _ => false
       end) df.

(** [category_df["category"].str.lower() != "none"]; on a null cell
    [.str.lower()] is null, and null differs from every string. *)
Definition not_none (r : CategoryAggregate) : bool :=
  match category r with
  | Some s => negb (String.eqb (lower s) "none")
  | None => true
  end.

Definition clean (df : list CategoryAggregate) : list CategoryAggregate :=
  filter not_none (dropna_rows df).

(** [DataFrame.round(2)]: every fractional column; text and integer
    columns are left as they are. *)
Definition round_row (r : CategoryAggregate) : CategoryAggregate :=
  {| Conceptual_Group := Conceptual_Group r;
     category := category r;
     total_earnings := option_map round2 (total_earnings r);
     avg_earnings := round2 (avg_earnings r);
     total_impressions := total_impressions r;
     EPI := option_map round2 (EPI r);
     CTR := option_map round2 (CTR r) |}.

Definition round_df (df : list CategoryAggregate) : list CategoryAggregate :=
  map round_row df.

(** ** Recommendations *)

(** [DataFrame.sort_values("total_earnings", ascending=False)] *)
Definition sort_values (sort_by : Sorter) (df : list CategoryAggregate) :
    list CategoryAggregate :=
  sort_by CategoryAggregate total_earnings df.

Definition head (n : nat) (df : list CategoryAggregate) : list CategoryAggregate :=
  firstn n df.

Section Recommendations.
Variable sort_by : Sorter.
Variable category_df : list CategoryAggregate.
Variable partner_categories : list cell.
Variable in_domain_groups : list cell.

Definition top_categories : list cell :=
  map category (head 30 (sort_values sort_by category_df)).

Definition recommended : list cell :=
  filter (fun cat => negb (py_in cat partner_categories)) top_categories.

(** The lambda of the [Domain] column. *)
Definition classify (x : cell) : DomainLabel :=
  if py_in x in_domain_groups then In_Domain else Out_of_Domain.

Definition recommended_df : list RecommendationEntry :=
  map (fun r => {| aggregate := r; Domain := classify (Conceptual_Group r) |})
    (filter (fun r => py_in (category r) recommended) category_df).
End Recommendations.

(** The recommendation engine on a fetched table: cleaning, the rounding
    done for the first tab, then the recommendation lines. *)
Definition recommend (sort_by : Sorter) (fetched : list CategoryAggregate)
    (partner_categories in_domain_groups : list cell) : list RecommendationEntry :=
  recommended_df sort_by (round_df (clean fetched)) partner_categories
    in_domain_groups.

(** ** The page script *)

Inductive SqlQuery :=
| category_query (start_date end_date : Z)
| raw_query (start_date end_date : Z)
| partner_category_query (start_date end_date : Z) (p : string)
| partner_groups_query (start_date end_date : Z) (p : string).

(** What the page shows; charts and metrics carry no decision and are
    left out. *)
Inductive Widget :=
| sidebar_error_invalid_range
| warning_no_data
| dataframe_categories (df : list CategoryAggregate)
| dataframe_recommendations (df : list RecommendationEntry)
| info_all_top_used (selected_partner : option string)
| table_groups (selected_partner : option string) (groups : list cell)
| warning_no_groups (selected_partner : option string)
| chart_partner_usage (df : list (cell * Q))
| warning_no_categories (selected_partner : option string).

Inductive Effect :=
| Issue (q : SqlQuery)
| Display (w : Widget).

(** A run goes on with a value, was halted by [st.stop()], or died of an
    exception that nothing catches. *)
Inductive Run (A : Type) :=
| Continue (a : A)
| Stopped
| Raised.
Arguments Continue {A} a.
Arguments Stopped {A}.
Arguments Raised {A}.

Definition Script (A : Type) : Type := list Effect -> Run A * list Effect.

Definition ret {A : Type} (a : A) : Script A := fun tr => (Continue a, tr).

Definition bind {A B : Type} (c : Script A) (k : A -> Script B) : Script B :=
  fun tr =>
    match c tr with
    | (Continue a, tr') => k a tr'
    | (Stopped, tr') => (Stopped, tr')
    | (Raised, tr') => (Raised, tr')
    end.

Definition emit (e : Effect) : Script unit := fun tr => (Continue tt, tr ++ [e]).
Definition stop {A : Type} : Script A := fun tr => (Stopped, tr).
Definition raise_error {A : Type} : Script A := fun tr => (Raised, tr).

Notation "x <- c ;; k" := (bind c (fun x => k))
  (at level 61, c at next level, right associativity).
Notation "c ;;; k" := (bind c (fun _ => k))
  (at level 61, right associativity).

(** A query: logged when issued, answered from the table's contents. *)
Definition read_sql {A : Type} (q : SqlQuery) (answer : A) : Script A :=
  emit (Issue q) ;;; ret answer.

(** A query whose text the engine may reject: [pd.read_sql] then raises,
    after the text was handed over. *)
Definition read_sql_spliced {A : Type} (q : SqlQuery) (answer : option A) :
    Script A :=
  emit (Issue q) ;;;
  match answer with
  | Some a => ret a
  | None => raise_error
  end.

Fixpoint insert_string (s : string) (l : list string) : list string :=
  match l with
  | [] => [s]
  | x :: xs => if String.leb s x then s :: x :: xs else x :: insert_string s xs
  end.

(** Python's [sorted] on a list of strings. *)
Definition sorted (l : list string) : list string :=
  fold_right insert_string [] l.

(** How an f-string prints the selected partner. *)
Definition format_partner (p : option string) : string :=
  match p with
  | Some s => s
  | None => "None"
  end.

Definition is_empty {A : Type} (l : list A) : bool :=
  match l with [] => true | _ => false end.

Section App.
Variable sort_by : Sorter.
Variable engine : Engine.
Variable db : list Event.
(** The partner drop-down: the user's pick among the options. *)
Variable selectbox : list string -> option string.
Variables start_date end_date : Z.

(** [with tab1:] the rounded table is shown and kept in [category_df]. *)
Definition tab1 (category_df : list CategoryAggregate) :
    Script (list CategoryAggregate) :=
  let category_df := round_df category_df in
  emit (Display (dataframe_categories category_df)) ;;;
  ret category_df.

(** [with tab2:] *)
Definition tab2 (selected_partner : option string)
    (recommended_df : list RecommendationEntry) : Script unit :=
  if negb (is_empty recommended_df)
  then emit (Display (dataframe_recommendations recommended_df))
  else emit (Display (info_all_top_used selected_partner)).

(** [with tab3:] *)
Definition tab3 (selected_partner : option string)
    (in_domain_groups : list cell) (partner_used_df : list (cell * Q)) :
    Script unit :=
  (if negb (is_empty in_domain_groups)
   then emit (Display (table_groups selected_partner in_domain_groups))
   else emit (Display (warning_no_groups selected_partner))) ;;;
  (if negb (is_empty partner_used_df)
   then emit (Display (chart_partner_usage partner_used_df))
   else emit (Display (warning_no_categories selected_partner))).

Definition app_script : Script unit :=
  if end_date <? start_date then
    emit (Display sidebar_error_invalid_range) ;;; stop
  else
    category_df <- read_sql (category_query start_date end_date)
                      (fetch_category_data db start_date end_date) ;;
    raw_df <- read_sql (raw_query start_date end_date)
                 (fetch_raw_data db start_date end_date) ;;
    if is_empty category_df then
      emit (Display warning_no_data) ;;; stop
    else
      let partner_list := sorted (unique String.eqb (map snd raw_df)) in
      let selected_partner := selectbox partner_list in
      let category_df := clean category_df in
      category_df <- tab1 category_df ;;
      partner_used_df <-
        read_sql_spliced (partner_category_query start_date end_date
                            (format_partner selected_partner))
          (fetch_partner_category_data engine db start_date end_date
             (format_partner selected_partner)) ;;
      let partner_categories := map fst partner_used_df in
      in_domain_groups <-
        read_sql_spliced (partner_groups_query start_date end_date
                            (format_partner selected_partner))
          (fetch_partner_conceptual_groups engine db start_date end_date
             (format_partner selected_partner)) ;;
      let recommended_df :=
        recommended_df sort_by category_df partner_categories in_domain_groups in
      tab2 selected_partner recommended_df ;;;
      tab3 selected_partner in_domain_groups partner_used_df.

(** One run of the page, from an empty trace.  In the script above the
    partner column holds no null, so the [dropna] of the partner list has
    nothing to drop; the summary metrics, the charts and the download
    buttons are display only. *)
Definition run_app : Run unit * list Effect := app_script [].

(** The values the script computes on the way, named for the
    statements below. *)
Definition the_selected_partner : option string :=
  selectbox
    (sorted (unique String.eqb
               (map snd (fetch_raw_data db start_date end_date)))).

Definition the_category_df : list CategoryAggregate :=
  round_df (clean (fetch_category_data db start_date end_date)).

Definition the_partner_used_df : option (list (cell * Q)) :=
  fetch_partner_category_data engine db start_date end_date
    (format_partner the_selected_partner).

Definition the_in_domain_groups : option (list cell) :=
  fetch_partner_conceptual_groups engine db start_date end_date
    (format_partner the_selected_partner).

Definition the_recommended_df : option (list RecommendationEntry) :=
  match the_partner_used_df, the_in_domain_groups with
  | Some partner_used_df, Some in_domain_groups =>
      Some (recommended_df sort_by the_category_df (map fst partner_used_df)
              in_domain_groups)
  | _, _ => None
  end.
End App.

Definition queries_issued (tr : list Effect) : list SqlQuery :=
  flat_map (fun e => match e with Issue q => [q] | Display _ => [] end) tr.

(** ** Notions used in the statements *)

(** The word "none" in any letter casing. *)
Definition none_any_case (s : string) : Prop :=
  exists a b c d : ascii,
    s = String a (String b (String c (String d EmptyString))) /\
    (a = "n"%char \/ a = "N"%char) /\
    (b = "o"%char \/ b = "O"%char) /\
    (c = "n"%char \/ c = "N"%char) /\
    (d = "e"%char \/ d = "E"%char).

(** A row whose category is present and is not the word "none". *)
Definition named_category (r : CategoryAggregate) : Prop :=
  exists s, category r = Some s /\ ~ none_any_case s.


(** ** A table with one category in two conceptual groups *)

Definition thirty_names : list string :=
  ["c01"; "c02"; "c03"; "c04"; "c05"; "c06"; "c07"; "c08"; "c09"; "c10";
   "c11"; "c12"; "c13"; "c14"; "c15"; "c16"; "c17"; "c18"; "c19"; "c20";
   "c21"; "c22"; "c23"; "c24"; "c25"; "c26"; "c27"; "c28"; "c29"; "c30"].

(** Thirty categories of group G earning 100, 99, ..., 71, and category
    c01 once more in group H, earning 1. *)
Definition two_group_db : list Event :=
  map (fun p : nat * string =>
         mkEvent 0 (Some (snd p)) (Some "G") "P"
           (inject_Z (100 - Z.of_nat (fst p))) 1 0)
    (combine (seq 0 30) thirty_names)
  ++ [mkEvent 0 (Some "c01") (Some "H") "P" 1 1 0].

Definition two_group_table : list CategoryAggregate :=
  fetch_category_data two_group_db 0 0.

(** The row of category c01 in group H, as it is displayed. *)
Definition c01_in_H : CategoryAggregate :=
  round_row (aggregate_group two_group_db 0 0 (Some "c01", Some "H")).

(** ** Tables whose only partner has a name that is not a plain literal *)

Definition obrien_db : list Event :=
  [ mkEvent 1 (Some "Autos") (Some "Vehicles") "O'Brien" (1 # 1) 1 1 ].

Definition spliced_condition_db : list Event :=
  [ mkEvent 1 (Some "Autos") (Some "Vehicles") "z' AND 'a'='b" (1 # 1) 1 1 ].

(** ** A small event table *)

(** Window 1..3: acme uses Autos; bolt uses Autos, Boats, Cats and the
    pseudo-category None; cust uses Cats only, with no conceptual group. *)
Definition sample_db : list Event :=
  [ mkEvent 1 (Some "Autos") (Some "Vehicles") "acme" (100 # 1) 10 2;
    mkEvent 2 (Some "Boats") (Some "Vehicles") "bolt" (80 # 1) 0 0;
    mkEvent 2 (Some "Cats") None "cust" (50 # 1) 5 1;
    mkEvent 2 (Some "Autos") (Some "Vehicles") "bolt" (5 # 2) 5 1;
    mkEvent 9 (Some "Dogs") None "bolt" (50 # 1) 5 1;
    mkEvent 2 (Some "None") None "bolt" (500 # 1) 5 1;
    mkEvent 3 None (Some "Vehicles") "bolt" (7 # 1) 1 1;
    mkEvent 3 (Some "Cats") (Some "Pets") "bolt" (201 # 200) 4 1 ].

Definition sample_table : list CategoryAggregate :=
  fetch_category_data sample_db 1 3.

(** The drop-down left on a given partner. *)
Definition pick (p : string) : list string -> option string :=
  fun options => if existsb (String.eqb p) options then Some p else None.

(** The row of Boats in the small table, as it is displayed. *)
Definition boats_row : CategoryAggregate :=
  round_row (aggregate_group sample_db 1 3 (Some "Boats", Some "Vehicles")).

(** What a shown table must satisfy after cleaning. *)
Definition shows_named_categories (eff : Effect) : Prop :=
  match eff with
  | Display (dataframe_categories df) => Forall named_category df
  | Display (dataframe_recommendations df) =>
      Forall (fun entry => named_category (aggregate entry)) df
  | _ => True
  end.

(** The row of Boats in the small table, as it is fetched. *)
Definition boats_fetched : CategoryAggregate :=
  aggregate_group sample_db 1 3 (Some "Boats", Some "Vehicles").


(** The categories bolt uses in the small table. *)
Definition bolt_categories : list cell :=
  map fst (partner_category_rows sample_db 1 3 "bolt").

(** ** A table whose rows all round to the same earnings *)



(** ** Further parts of the page *)

(** The list [fetch_partner_conceptual_groups] returns for a partner of
    plain name: the column of the query, after [.dropna().unique()]. *)
Definition partner_groups (db : list Event) (start_date end_date : Z)
    (p : string) : list cell :=
  unique cell_eqb (dropna (partner_group_rows db start_date end_date p)).

(** The options of the partner drop-down (line 102). *)
Definition partner_list (db : list Event) (start_date end_date : Z) : list string :=
  sorted (unique String.eqb (map snd (fetch_raw_data db start_date end_date))).

(** The summary metrics (lines 112-114), as numbers; [Series.sum] skips
    nulls, [nunique] counts the distinct values. *)
Definition metric_total_earnings (category_df : list CategoryAggregate) : Q :=
  Qsum (map (fun r => match total_earnings r with Some q => q | None => 0%Q end)
          category_df).

Definition metric_total_impressions (category_df : list CategoryAggregate) : Z :=
  Zsum (map total_impressions category_df).

Definition metric_partners (raw_df : list (cell * string)) : nat :=
  List.length (unique String.eqb (map snd raw_df)).

(** The radio button of the charts and the column it selects. *)
Inductive Metric := Total_Earnings | Average_Earnings.

Definition y_col (metric_choice : Metric) (r : CategoryAggregate) : option Q :=
  match metric_choice with
  | Total_Earnings => total_earnings r
  | Average_Earnings => Some (avg_earnings r)
  end.


Definition DomainLabel_eqb (a b : DomainLabel) : bool :=
  match a, b with
  | In_Domain, In_Domain => true
  | Out_of_Domain, Out_of_Domain => true
  | _, _ => false
  end.

(** [recommended_df[recommended_df["Domain"] == domain_type]] *)
Definition domain_df (domain_type : DomainLabel)
    (recommended_df : list RecommendationEntry) : list RecommendationEntry :=
  filter (fun entry => DomainLabel_eqb (Domain entry) domain_type) recommended_df.

(** The charts of the second tab (lines 181-193): one per domain type
    that has rows, its rows sorted by the chosen metric. *)
Definition domain_charts (sort_by : Sorter) (rec_metric_choice : Metric)
    (recommended_df : list RecommendationEntry) :
    list (DomainLabel * list RecommendationEntry) :=
  flat_map
    (fun domain_type =>
       let domain_df := domain_df domain_type recommended_df in
       if negb (is_empty domain_df)
       then [(domain_type,
              sort_by RecommendationEntry
                (fun entry => y_col rec_metric_choice (aggregate entry))
                domain_df)]
       else [])
    [In_Domain; Out_of_Domain].

(** An event whose category is present and does not lower-case to "none". *)
Definition named_event (ev : Event) : bool :=
  match ev_category ev with
  | Some s => negb (String.eqb (lower s) "none")
  | None => false
  end.

(** The (category, Conceptual_Group) pair of a row. *)
Definition row_key (r : CategoryAggregate) : cell * cell :=
  (category r, Conceptual_Group r).

(** A group key whose category is present and does not lower-case to
    "none". *)
Definition named_key (k : cell * cell) : bool :=
  match fst k with
  | Some s => negb (String.eqb (lower s) "none")
  | None => false
  end.

(** * Properties *)

(** ** Comparison of earnings *)

Lemma Qltb_lt (a b : Q) : Qltb a b = true <-> (a < b)%Q.
Proof.
  unfold Qltb. rewrite Qlt_alt.
  destruct (a ?= b)%Q; split; intro H; congruence.
Qed.

Lemma Qltb_ge (a b : Q) : Qltb a b = false <-> (b <= a)%Q.
Proof.
  split; intro H.
  - apply Qnot_lt_le. intro L. apply Qltb_lt in L. congruence.
  - destruct (Qltb a b) eqn:E; [|reflexivity].
    apply Qltb_lt in E. exfalso. exact (Qlt_not_le _ _ E H).
Qed.

Lemma key_lt_asym (a b : option Q) : key_lt a b = true -> key_lt b a = false.
Proof.
  destruct a as [x|], b as [y|]; simpl; try congruence.
  intro H. apply Qltb_lt in H. apply Qltb_ge. apply Qlt_le_weak. exact H.
Qed.

Lemma key_ge_trans (a b c : option Q) :
  key_lt a b = false -> key_lt b c = false -> key_lt a c = false.
Proof.
  destruct a as [x|], b as [y|], c as [z|]; simpl; try congruence.
  rewrite !Qltb_ge. intros H1 H2. exact (Qle_trans _ _ _ H2 H1).
Qed.

(** ** The descending sort *)

Section SortDescFacts.
Context {A : Type} (key : A -> option Q).

Lemma in_insert_desc (r y : A) (l : list A) :
  In y (insert_desc key r l) <-> y = r \/ In y l.
Proof.
  induction l as [|x xs IH]; simpl.
  - intuition congruence.
  - destruct (key_lt (key r) (key x)); simpl; rewrite ?IH; intuition congruence.
Qed.

Lemma in_sort_desc (y : A) (l : list A) : In y (sort_desc key l) <-> In y l.
Proof.
  induction l as [|r rest IH]; simpl; [tauto|].
  rewrite in_insert_desc, IH. intuition congruence.
Qed.

Lemma insert_desc_permutation (r : A) (l : list A) :
  Permutation (insert_desc key r l) (r :: l).
Proof.
  induction l as [|x xs IH]; simpl; [apply Permutation_refl|].
  destruct (key_lt (key r) (key x)); [|apply Permutation_refl].
  apply Permutation_trans with (x :: r :: xs).
  - apply perm_skip. exact IH.
  - apply perm_swap.
Qed.

(** The sort only rearranges the rows. *)
Lemma sort_desc_permutation (l : list A) : Permutation (sort_desc key l) l.
Proof.
  induction l as [|r rest IH]; simpl; [apply perm_nil|].
  apply Permutation_trans with (r :: sort_desc key rest).
  - apply insert_desc_permutation.
  - apply perm_skip. exact IH.
Qed.

Lemma insert_desc_descending (r : A) (l : list A) :
  descending key l -> descending key (insert_desc key r l).
Proof.
  unfold descending. induction 1 as [|x xs Hs IH Hx]; simpl.
  - constructor; constructor.
  - destruct (key_lt (key r) (key x)) eqn:E.
    + constructor; [exact IH|].
      apply Forall_forall. intros y Hy. apply in_insert_desc in Hy.
      destruct Hy as [->|Hy].
      * apply key_lt_asym. exact E.
      * rewrite Forall_forall in Hx. apply Hx. exact Hy.
    + constructor; [constructor; assumption|].
      constructor; [exact E|].
      apply Forall_forall. intros y Hy. rewrite Forall_forall in Hx.
      apply key_ge_trans with (b := key x); [exact E | apply Hx; exact Hy].
Qed.

Lemma sort_desc_descending (l : list A) : descending key (sort_desc key l).
Proof.
  induction l as [|r rest IH]; simpl.
  - constructor.
  - apply insert_desc_descending. exact IH.
Qed.


Lemma filter_descending (p : A -> bool) (l : list A) :
  descending key l -> descending key (filter p l).
Proof.
  unfold descending. induction 1 as [|r rest Hs IH Hr]; simpl.
  - constructor.
  - destruct (p r); [|exact IH].
    constructor; [exact IH|].
    apply Forall_forall. intros y Hy. apply filter_In in Hy.
    rewrite Forall_forall in Hr. apply Hr. tauto.
Qed.
End SortDescFacts.

(** ** Rounding keeps the order *)

Section Rint.
Variables (n : Z) (d : positive).
Let z := rint (n # d).

Lemma rint_near :
  2 * Z.pos d * z - Z.pos d <= 2 * n <= 2 * Z.pos d * z + Z.pos d.
Proof.
  subst z. unfold rint. simpl Qnum. simpl Qden.
  pose proof (Z.div_mod n (Z.pos d) ltac:(lia)) as E.
  pose proof (Z.mod_pos_bound n (Z.pos d) ltac:(lia)) as B.
  set (f := n / Z.pos d) in *. set (r := n mod Z.pos d) in *.
  set (D := Z.pos d) in *. clearbody f r D.
  destruct (Z.compare_spec (2 * r) D) as [C|C|C].
  - destruct (Z.even f); nia.
  - nia.
  - nia.
Qed.

Lemma rint_half_even :
  2 * n = 2 * Z.pos d * z - Z.pos d \/ 2 * n = 2 * Z.pos d * z + Z.pos d ->
  Z.even z = true.
Proof.
  subst z. unfold rint. simpl Qnum. simpl Qden.
  pose proof (Z.div_mod n (Z.pos d) ltac:(lia)) as E.
  pose proof (Z.mod_pos_bound n (Z.pos d) ltac:(lia)) as B.
  set (f := n / Z.pos d) in *. set (r := n mod Z.pos d) in *.
  set (D := Z.pos d) in *. clearbody f r D.
  destruct (Z.compare_spec (2 * r) D) as [C|C|C].
  - destruct (Z.even f) eqn:Ev; intros [H|H]; try nia;
      first [exact Ev | rewrite Z.even_add, Ev; reflexivity].
  - intros [H|H]; nia.
  - intros [H|H]; nia.
Qed.
End Rint.

Lemma rint_monotone (a b : Q) : (a <= b)%Q -> rint a <= rint b.
Proof.
  destruct a as [n1 d1], b as [n2 d2]. unfold Qle. simpl. intro L.
  pose proof (rint_near n1 d1) as N1. pose proof (rint_near n2 d2) as N2.
  pose proof (rint_half_even n1 d1) as E1. pose proof (rint_half_even n2 d2) as E2.
  set (z1 := rint (n1 # d1)) in *. set (z2 := rint (n2 # d2)) in *.
  destruct (Z_le_gt_dec z1 z2) as [?|G]; [assumption|exfalso].
  assert (P1 : 0 < Z.pos d1) by lia. assert (P2 : 0 < Z.pos d2) by lia.
  set (D1 := Z.pos d1) in *. set (D2 := Z.pos d2) in *.
  assert (U : 2 * n2 * D1 <= (2 * z2 + 1) * D1 * D2) by nia.
  assert (V : (2 * z1 - 1) * D1 * D2 <= 2 * n1 * D2) by nia.
  assert (W : (2 * z2 + 1) * (D1 * D2) <= (2 * z1 - 1) * (D1 * D2)).
  { apply Z.mul_le_mono_nonneg_r; nia. }
  assert (T : (2 * z1 - 1) * (D1 * D2) <= (2 * z2 + 1) * (D1 * D2)) by nia.
  assert (Zeq : z1 = z2 + 1).
  { assert (0 < D1 * D2) by nia.
    assert (2 * z1 - 1 <= 2 * z2 + 1).
    { apply Z.mul_le_mono_pos_r with (p := D1 * D2); assumption. }
    lia. }
  assert (A1 : 2 * n1 = 2 * D1 * z1 - D1) by nia.
  assert (A2 : 2 * n2 = 2 * D2 * z2 + D2) by nia.
  specialize (E1 (or_introl A1)). specialize (E2 (or_intror A2)).
  rewrite Zeq, Z.even_add, E2 in E1. discriminate.
Qed.

Lemma round2_monotone (a b : Q) : (a <= b)%Q -> (round2 a <= round2 b)%Q.
Proof.
  intro L. unfold round2, Qle. simpl.
  apply Z.mul_le_mono_nonneg_r; [lia|].
  apply rint_monotone. apply Qmult_le_compat_r; [exact L|discriminate].
Qed.

Lemma key_lt_round (a b : option Q) :
  key_lt a b = false ->
  key_lt (option_map round2 a) (option_map round2 b) = false.
Proof.
  destruct a as [x|], b as [y|]; simpl; try congruence.
  rewrite !Qltb_ge. apply round2_monotone.
Qed.

(** ** Cells, membership and the word "none" *)

Lemma cell_eqb_eq (a b : cell) : cell_eqb a b = true <-> a = b.
Proof.
  destruct a as [x|], b as [y|]; simpl; try (split; congruence).
  rewrite String.eqb_eq. split; congruence.
Qed.

Lemma py_in_In (x : cell) (xs : list cell) : py_in x xs = true <-> In x xs.
Proof.
  unfold py_in. rewrite existsb_exists. split.
  - intros [y [Hy E]]. apply cell_eqb_eq in E. subst. exact Hy.
  - intro H. exists x. split; [exact H|]. apply cell_eqb_eq. reflexivity.
Qed.

Lemma py_in_not_In (x : cell) (xs : list cell) : py_in x xs = false <-> ~ In x xs.
Proof.
  rewrite <- py_in_In. destruct (py_in x xs); split; congruence.
Qed.

Ltac each_ascii c :=
  destruct c as [[] [] [] [] [] [] [] []]; vm_compute;
  let H := fresh "H" in intro H; first [discriminate H | auto].

Lemma lower_ascii_n (c : ascii) :
  lower_ascii c = "n"%char -> c = "n"%char \/ c = "N"%char.
Proof. each_ascii c. Qed.

Lemma lower_ascii_o (c : ascii) :
  lower_ascii c = "o"%char -> c = "o"%char \/ c = "O"%char.
Proof. each_ascii c. Qed.

Lemma lower_ascii_e (c : ascii) :
  lower_ascii c = "e"%char -> c = "e"%char \/ c = "E"%char.
Proof. each_ascii c. Qed.

(** Lower-casing gives "none" exactly on the sixteen casings of the word. *)
Lemma lower_none_iff (s : string) : lower s = "none" <-> none_any_case s.
Proof.
  split.
  - destruct s as [|a [|b [|c [|d [|x s]]]]]; simpl; try discriminate.
    intro H. injection H as Ha Hb Hc Hd.
    exists a, b, c, d. split; [reflexivity|].
    auto using lower_ascii_n, lower_ascii_o, lower_ascii_e.
  - intros (a & b & c & d & -> & Ha & Hb & Hc & Hd).
    destruct Ha as [-> | ->], Hb as [-> | ->], Hc as [-> | ->], Hd as [-> | ->];
      reflexivity.
Qed.

Lemma not_none_named (r : CategoryAggregate) (s : string) :
  category r = Some s -> not_none r = true -> ~ none_any_case s.
Proof.
  unfold not_none. intros -> H N. apply lower_none_iff in N.
  rewrite N in H. discriminate.
Qed.

(** ** The cleaned table *)

Lemma in_clean (r : CategoryAggregate) (df : list CategoryAggregate) :
  In r (clean df) ->
  In r df /\ named_category r /\ exists q, total_earnings r = Some q.
Proof.
  unfold clean, dropna_rows. rewrite !filter_In. intros [[Hin Hd] Hn].
  split; [exact Hin|].
  destruct (category r) as [s|] eqn:Ec; [|discriminate].
  destruct (total_earnings r) as [q|] eqn:Et; [|discriminate].
  split; [|exists q; reflexivity].
  exists s. split; [exact Ec|]. exact (not_none_named r s Ec Hn).
Qed.

Lemma named_category_round (r : CategoryAggregate) :
  named_category r -> named_category (round_row r).
Proof. intro H. exact H. Qed.

Lemma in_round_df (r : CategoryAggregate) (df : list CategoryAggregate) :
  In r (round_df df) <-> exists r0, r = round_row r0 /\ In r0 df.
Proof.
  unfold round_df. rewrite in_map_iff. split; intros [r0 [H1 H2]]; eauto.
Qed.

Lemma clean_descending (df : list CategoryAggregate) :
  descending total_earnings df -> descending total_earnings (clean df).
Proof.
  intro H. unfold clean, dropna_rows. do 2 apply filter_descending. exact H.
Qed.

Lemma round_df_descending (df : list CategoryAggregate) :
  descending total_earnings df -> descending total_earnings (round_df df).
Proof.
  unfold descending. induction 1 as [|r rest Hs IH Hr]; simpl.
  - constructor.
  - constructor; [exact IH|].
    apply Forall_forall. intros y Hy. apply in_round_df in Hy.
    destruct Hy as [y0 [-> Hy0]]. simpl. apply key_lt_round.
    rewrite Forall_forall in Hr. apply Hr. exact Hy0.
Qed.

Lemma fetch_category_data_descending (db : list Event) (s e : Z) :
  descending total_earnings (fetch_category_data db s e).
Proof. unfold fetch_category_data. apply sort_desc_descending. Qed.

Lemma the_category_df_descending (db : list Event) (s e : Z) :
  descending total_earnings (the_category_df db s e).
Proof.
  unfold the_category_df.
  apply round_df_descending, clean_descending, fetch_category_data_descending.
Qed.

(** ** Sorts *)

Lemma stable_sort_sorts : sorts stable_sort.
Proof.
  intros A key l. split; [apply sort_desc_permutation|apply sort_desc_descending].
Qed.


Section SortReversingFacts.
Context {A : Type} (key : A -> option Q).





End SortReversingFacts.



Lemma in_sorted (sort_by : Sorter) {A : Type} (key : A -> option Q)
    (l : list A) (x : A) :
  sorts sort_by -> (In x (sort_by A key l) <-> In x l).
Proof.
  intro S. destruct (S A key l) as [P _]. split; intro H.
  - exact (Permutation_in _ P H).
  - exact (Permutation_in _ (Permutation_sym P) H).
Qed.

(** ** The recommendation lines *)

Lemma aggregate_recommended_df (sort_by : Sorter)
    (category_df : list CategoryAggregate) (used groups : list cell) :
  map aggregate (recommended_df sort_by category_df used groups) =
  filter (fun r => py_in (category r) (recommended sort_by category_df used))
    category_df.
Proof.
  unfold recommended_df. rewrite map_map. simpl. apply map_id.
Qed.

Lemma in_recommended (sort_by : Sorter) (category_df : list CategoryAggregate)
    (used : list cell) (c : cell) :
  In c (recommended sort_by category_df used) <->
  In c (top_categories sort_by category_df) /\ ~ In c used.
Proof.
  unfold recommended. rewrite filter_In, negb_true_iff, py_in_not_In. tauto.
Qed.

Lemma in_head (n : nat) (r : CategoryAggregate) (df : list CategoryAggregate) :
  In r (head n df) -> In r df.
Proof.
  unfold head. intro H. rewrite <- (firstn_skipn n df). apply in_or_app. auto.
Qed.

Lemma NoDup_map_eq {A B : Type} (f : A -> B) (l : list A) (a b : A) :
  NoDup (map f l) -> In a l -> In b l -> f a = f b -> a = b.
Proof.
  induction l as [|x xs IH]; simpl; [tauto|].
  intros N Ha Hb E. inversion N as [|? ? Hx Hxs]; subst.
  destruct Ha as [->|Ha], Hb as [->|Hb].
  - reflexivity.
  - exfalso. apply Hx. rewrite E. apply in_map. exact Hb.
  - exfalso. apply Hx. rewrite <- E. apply in_map. exact Ha.
  - apply IH; assumption.
Qed.

(** ** The ways a run of the page ends *)

Lemma list_eq_nil_dec {A : Type} (l : list A) : {l = []} + {l <> []}.
Proof. destruct l; [left; reflexivity|right; discriminate]. Qed.

Section Runs.
Variable sort_by : Sorter.
Variable engine : Engine.
Variable db : list Event.
Variable selectbox : list string -> option string.
Variables start_date end_date : Z.

Lemma run_app_invalid_range :
  end_date < start_date ->
  run_app sort_by engine db selectbox start_date end_date =
  (Stopped, [Display sidebar_error_invalid_range]).
Proof.
  intro H. unfold run_app, app_script.
  apply Z.ltb_lt in H. rewrite H. reflexivity.
Qed.

Lemma run_app_no_data :
  start_date <= end_date ->
  fetch_category_data db start_date end_date = [] ->
  run_app sort_by engine db selectbox start_date end_date =
  (Stopped,
   [Issue (category_query start_date end_date);
    Issue (raw_query start_date end_date);
    Display warning_no_data]).
Proof.
  intros H E. unfold run_app, app_script.
  apply Z.ltb_ge in H. rewrite H.
  unfold bind, read_sql, emit, ret, stop. simpl. rewrite E. reflexivity.
Qed.

Ltac run_past_guards H :=
  unfold run_app, app_script; apply Z.ltb_ge in H; rewrite H;
  destruct (fetch_category_data db start_date end_date) as [|r0 rest];
  [congruence|];
  cbv beta iota zeta delta
    [bind read_sql read_sql_spliced emit ret stop raise_error tab1 tab2 tab3];
  change (is_empty (r0 :: rest)) with false; cbv beta iota.

(** The partner-category query is rejected: the run dies there. *)
Lemma run_app_raised_at_categories :
  start_date <= end_date ->
  fetch_category_data db start_date end_date <> [] ->
  the_partner_used_df engine db selectbox start_date end_date = None ->
  run_app sort_by engine db selectbox start_date end_date =
  (Raised,
   [Issue (category_query start_date end_date);
    Issue (raw_query start_date end_date);
    Display (dataframe_categories (the_category_df db start_date end_date));
    Issue (partner_category_query start_date end_date
             (format_partner (the_selected_partner db selectbox start_date end_date)))]).
Proof.
  intros H E U. unfold the_partner_used_df, the_selected_partner in U.
  unfold the_category_df, the_selected_partner.
  run_past_guards H. rewrite U. reflexivity.
Qed.

(** The partner-groups query is rejected: the run dies there. *)
Lemma run_app_raised_at_groups (used : list (cell * Q)) :
  start_date <= end_date ->
  fetch_category_data db start_date end_date <> [] ->
  the_partner_used_df engine db selectbox start_date end_date = Some used ->
  the_in_domain_groups engine db selectbox start_date end_date = None ->
  run_app sort_by engine db selectbox start_date end_date =
  (Raised,
   [Issue (category_query start_date end_date);
    Issue (raw_query start_date end_date);
    Display (dataframe_categories (the_category_df db start_date end_date));
    Issue (partner_category_query start_date end_date
             (format_partner (the_selected_partner db selectbox start_date end_date)));
    Issue (partner_groups_query start_date end_date
             (format_partner (the_selected_partner db selectbox start_date end_date)))]).
Proof.
  intros H E U G. unfold the_partner_used_df, the_selected_partner in U.
  unfold the_in_domain_groups, the_selected_partner in G.
  unfold the_category_df, the_selected_partner.
  run_past_guards H. rewrite U. cbv beta iota. rewrite G. reflexivity.
Qed.

(** Both partner queries are answered: the three tabs are drawn. *)
Lemma run_app_page (used : list (cell * Q)) (groups : list cell) :
  start_date <= end_date ->
  fetch_category_data db start_date end_date <> [] ->
  the_partner_used_df engine db selectbox start_date end_date = Some used ->
  the_in_domain_groups engine db selectbox start_date end_date = Some groups ->
  let selected_partner := the_selected_partner db selectbox start_date end_date in
  let p := format_partner selected_partner in
  let recs :=
    recommended_df sort_by (the_category_df db start_date end_date)
      (map fst used) groups in
  run_app sort_by engine db selectbox start_date end_date =
  (Continue tt,
   [Issue (category_query start_date end_date);
    Issue (raw_query start_date end_date);
    Display (dataframe_categories (the_category_df db start_date end_date));
    Issue (partner_category_query start_date end_date p);
    Issue (partner_groups_query start_date end_date p);
    Display (if negb (is_empty recs) then dataframe_recommendations recs
             else info_all_top_used selected_partner);
    Display (if negb (is_empty groups) then table_groups selected_partner groups
             else warning_no_groups selected_partner);
    Display (if negb (is_empty used) then chart_partner_usage used
             else warning_no_categories selected_partner)]).
Proof.
  intros H E U G. cbv zeta.
  unfold the_partner_used_df, the_selected_partner in U.
  unfold the_in_domain_groups, the_selected_partner in G.
  unfold the_category_df, the_selected_partner.
  run_past_guards H. rewrite U. cbv beta iota. rewrite G. cbv beta iota.
  repeat match goal with
         | |- context [negb (is_empty ?x)] =>
             destruct (negb (is_empty x)); cbv beta iota
         end.
  all: reflexivity.
Qed.

(** A run ends in one of five ways. *)
Lemma run_app_cases :
  let run := run_app sort_by engine db selectbox start_date end_date in
  let sp := the_selected_partner db selectbox start_date end_date in
  let p := format_partner sp in
  let shown := Display (dataframe_categories (the_category_df db start_date end_date)) in
  let cq := Issue (category_query start_date end_date) in
  let rq := Issue (raw_query start_date end_date) in
  let pq := Issue (partner_category_query start_date end_date p) in
  let gq := Issue (partner_groups_query start_date end_date p) in
  (end_date < start_date /\ run = (Stopped, [Display sidebar_error_invalid_range])) \/
  (start_date <= end_date /\ fetch_category_data db start_date end_date = [] /\
   run = (Stopped, [cq; rq; Display warning_no_data])) \/
  (start_date <= end_date /\ fetch_category_data db start_date end_date <> [] /\
   the_partner_used_df engine db selectbox start_date end_date = None /\
   run = (Raised, [cq; rq; shown; pq])) \/
  (start_date <= end_date /\ fetch_category_data db start_date end_date <> [] /\
   (exists used,
       the_partner_used_df engine db selectbox start_date end_date = Some used) /\
   the_in_domain_groups engine db selectbox start_date end_date = None /\
   run = (Raised, [cq; rq; shown; pq; gq])) \/
  (start_date <= end_date /\ fetch_category_data db start_date end_date <> [] /\
   exists used groups,
     the_partner_used_df engine db selectbox start_date end_date = Some used /\
     the_in_domain_groups engine db selectbox start_date end_date = Some groups /\
     the_recommended_df sort_by engine db selectbox start_date end_date =
       Some (recommended_df sort_by (the_category_df db start_date end_date)
               (map fst used) groups) /\
     run =
     (Continue tt,
      [cq; rq; shown; pq; gq;
       Display
         (if negb (is_empty (recommended_df sort_by
                               (the_category_df db start_date end_date)
                               (map fst used) groups))
          then dataframe_recommendations
                 (recommended_df sort_by (the_category_df db start_date end_date)
                    (map fst used) groups)
          else info_all_top_used sp);
       Display (if negb (is_empty groups) then table_groups sp groups
                else warning_no_groups sp);
       Display (if negb (is_empty used) then chart_partner_usage used
                else warning_no_categories sp)])).
Proof.
  cbv zeta. destruct (Z_lt_le_dec end_date start_date) as [L|L].
  { left. split; [exact L|]. apply run_app_invalid_range. exact L. }
  right.
  destruct (list_eq_nil_dec (fetch_category_data db start_date end_date)) as [F|F].
  { left. split; [exact L|]. split; [exact F|]. apply run_app_no_data; assumption. }
  right.
  destruct (the_partner_used_df engine db selectbox start_date end_date)
    as [used|] eqn:U.
  2:{ left. split; [exact L|]. split; [exact F|]. split; [reflexivity|].
      apply run_app_raised_at_categories; assumption. }
  right.
  destruct (the_in_domain_groups engine db selectbox start_date end_date)
    as [groups|] eqn:G.
  2:{ left. split; [exact L|]. split; [exact F|]. split; [eauto|].
      split; [reflexivity|]. apply (run_app_raised_at_groups used); assumption. }
  right. split; [exact L|]. split; [exact F|]. exists used, groups.
  split; [reflexivity|]. split; [reflexivity|]. split.
  - unfold the_recommended_df. rewrite U, G. reflexivity.
  - apply (run_app_page used groups); assumption.
Qed.
End Runs.

(** ** Distinct values and null-free lists *)

Lemma in_unique_from {A : Type} (eqb : A -> A -> bool) (x : A) (l seen : list A) :
  In x (unique_from eqb seen l) -> In x l.
Proof.
  revert seen. induction l as [|y ys IH]; simpl; intros seen H; [exact H|].
  destruct (existsb (eqb y) seen).
  - right. exact (IH _ H).
  - destruct H as [H|H]; [left; exact H | right; exact (IH _ H)].
Qed.

Lemma in_unique {A : Type} (eqb : A -> A -> bool) (x : A) (l : list A) :
  In x (unique eqb l) -> In x l.
Proof. apply in_unique_from. Qed.

Lemma cells_of_strings (l : list cell) :
  ~ In None l -> exists S : list string, l = map Some S.
Proof.
  induction l as [|c cs IH]; simpl; intro H.
  - exists []. reflexivity.
  - destruct IH as [S ->]; [tauto|].
    destruct c as [s|]; [|tauto]. exists (s :: S). reflexivity.
Qed.

Lemma partner_groups_not_null (engine : Engine) (db : list Event) (s e : Z)
    (p : string) (groups : list cell) :
  fetch_partner_conceptual_groups engine db s e p = Some groups ->
  ~ In None groups.
Proof.
  unfold fetch_partner_conceptual_groups.
  destruct (if sql_plain p then _ else _) as [df|]; simpl; [|discriminate].
  intro E. injection E as <-. intro H.
  apply in_unique in H. unfold dropna in H. apply filter_In in H.
  destruct H as [_ H]. discriminate H.
Qed.

(** For a plain name the partner queries are the queries as written. *)
Lemma plain_partner_categories (engine : Engine) (db : list Event) (s e : Z)
    (p : string) :
  sql_plain p = true ->
  fetch_partner_category_data engine db s e p =
  Some (partner_category_rows db s e p).
Proof. intro H. unfold fetch_partner_category_data. rewrite H. reflexivity. Qed.

Lemma plain_partner_groups (engine : Engine) (db : list Event) (s e : Z)
    (p : string) :
  sql_plain p = true ->
  fetch_partner_conceptual_groups engine db s e p =
  Some (unique cell_eqb (dropna (partner_group_rows db s e p))).
Proof. intro H. unfold fetch_partner_conceptual_groups. rewrite H. reflexivity. Qed.

Lemma clean_named (fetched : list CategoryAggregate) :
  Forall named_category (clean fetched).
Proof.
  apply Forall_forall. intros r H. apply in_clean in H. tauto.
Qed.

Lemma round_df_named (df : list CategoryAggregate) :
  Forall named_category df -> Forall named_category (round_df df).
Proof.
  rewrite !Forall_forall. intros H r Hr. apply in_round_df in Hr.
  destruct Hr as [r0 [-> Hr0]]. apply named_category_round. auto.
Qed.

Lemma recommended_df_named (sort_by : Sorter)
    (category_df : list CategoryAggregate) (used groups : list cell) :
  Forall named_category category_df ->
  Forall (fun entry => named_category (aggregate entry))
    (recommended_df sort_by category_df used groups).
Proof.
  rewrite !Forall_forall. intros H entry He. unfold recommended_df in He.
  apply in_map_iff in He. destruct He as [r [<- Hr]]. simpl.
  apply filter_In in Hr. apply H. tauto.
Qed.

Lemma in_fetch_category_data (db : list Event) (s e : Z) (r : CategoryAggregate) :
  In r (fetch_category_data db s e) ->
  r = aggregate_group db s e (category r, Conceptual_Group r).
Proof.
  unfold fetch_category_data. rewrite in_sort_desc, in_map_iff.
  intros [[c g] [<- _]]. reflexivity.
Qed.

Lemma filter_map_comm {A B : Type} (f : A -> B) (p : B -> bool) (l : list A) :
  filter p (map f l) = map f (filter (fun a => p (f a)) l).
Proof.
  induction l as [|a l IH]; simpl; [reflexivity|].
  destruct (p (f a)); simpl; congruence.
Qed.

Lemma filter_twice {A : Type} (p q : A -> bool) (l : list A) :
  filter p (filter q l) = filter (fun a => q a && p a) l.
Proof.
  induction l as [|a l IH]; simpl; [reflexivity|].
  destruct (q a); simpl; [destruct (p a)|]; simpl; congruence.
Qed.

Lemma filter_keeps_permutation {A : Type} (f : A -> bool) (l l' : list A) :
  Permutation l l' -> Permutation (filter f l) (filter f l').
Proof.
  induction 1 as [|x l l' P IH|x y l|l l' l'' P1 IH1 P2 IH2]; simpl.
  - apply perm_nil.
  - destruct (f x); [apply perm_skip|]; exact IH.
  - destruct (f x), (f y); try apply Permutation_refl. apply perm_swap.
  - exact (Permutation_trans IH1 IH2).
Qed.

Lemma classify_no_groups (x : cell) : classify [] x = Out_of_Domain.
Proof. reflexivity. Qed.

Lemma recommended_df_no_groups (sort_by : Sorter)
    (category_df : list CategoryAggregate) (used : list cell) :
  Forall (fun entry => Domain entry = Out_of_Domain)
    (recommended_df sort_by category_df used []).
Proof.
  apply Forall_forall. intros entry H. unfold recommended_df in H.
  apply in_map_iff in H. destruct H as [r [<- _]]. apply classify_no_groups.
Qed.

(** A partner of plain name with no positive-earning row in the window
    has no groups. *)
Lemma partner_without_earnings_has_no_groups
    (engine : Engine) (db : list Event) (s e : Z) (p : string) :
  sql_plain p = true ->
  (forall ev, In ev db -> partner ev = p -> in_window s e ev = true ->
              positive_earnings ev = false) ->
  fetch_partner_conceptual_groups engine db s e p = Some [].
Proof.
  intros Pl H.
  assert (E : selected_for_partner db s e p = []).
  { unfold selected_for_partner, selected.
    destruct (filter _ (filter _ db)) as [|ev l] eqn:F; [reflexivity|exfalso].
    assert (I : In ev (ev :: l)) by (left; reflexivity).
    rewrite <- F in I. apply filter_In in I. destruct I as [I P].
    apply filter_In in I. destruct I as [I W].
    apply String.eqb_eq in P. apply andb_true_iff in W. destruct W as [W1 W2].
    rewrite (H ev I P W1) in W2. discriminate. }
  rewrite (plain_partner_groups engine db s e p Pl).
  unfold partner_group_rows. rewrite E. reflexivity.
Qed.

Lemma saturated_recommended_empty (sort_by : Sorter)
    (category_df : list CategoryAggregate) (used : list cell) :
  (forall c, In c (top_categories sort_by category_df) -> In c used) ->
  recommended sort_by category_df used = [].
Proof.
  intro H. unfold recommended.
  destruct (filter _ (top_categories sort_by category_df)) as [|c l] eqn:F;
    [reflexivity|].
  exfalso. assert (I : In c (c :: l)) by (left; reflexivity).
  rewrite <- F in I. apply filter_In in I. destruct I as [I N].
  apply negb_true_iff, py_in_not_In in N. apply N, H, I.
Qed.

Lemma recommended_df_nothing_recommended (sort_by : Sorter)
    (category_df : list CategoryAggregate) (used groups : list cell) :
  recommended sort_by category_df used = [] ->
  recommended_df sort_by category_df used groups = [].
Proof.
  intro E. unfold recommended_df. rewrite E. simpl. clear E.
  induction category_df as [|r l IH]; simpl; [reflexivity|exact IH].
Qed.





(** ** The small table, evaluated *)

Example sample_categories :
  map (fun r => (category r, Conceptual_Group r)) sample_table =
  [(Some "None", None); (Some "Autos", Some "Vehicles");
   (Some "Boats", Some "Vehicles"); (Some "Cats", None);
   (None, Some "Vehicles"); (Some "Cats", Some "Pets")].
Proof. reflexivity. Qed.

Example sample_recommendations_for_acme :
  option_map
    (map (fun entry =>
            (category (aggregate entry), Conceptual_Group (aggregate entry),
             Domain entry)))
    (the_recommended_df stable_sort rejecting_engine sample_db (pick "acme") 1 3) =
  Some [(Some "Boats", Some "Vehicles", In_Domain);
        (Some "Cats", None, Out_of_Domain);
        (Some "Cats", Some "Pets", Out_of_Domain)].
Proof. reflexivity. Qed.

Example sample_queries_issued :
  queries_issued
    (snd (run_app stable_sort rejecting_engine sample_db (pick "acme") 1 3)) =
  [category_query 1 3; raw_query 1 3;
   partner_category_query 1 3 "acme"; partner_groups_query 1 3 "acme"].
Proof. reflexivity. Qed.

Example sample_no_data :
  run_app stable_sort rejecting_engine sample_db (pick "acme") 20 30 =
  (Stopped, [Issue (category_query 20 30); Issue (raw_query 20 30);
             Display warning_no_data]).
Proof. reflexivity. Qed.

Example round2_halves :
  round2 (201 # 200) = (100 # 100)%Q /\ round2 (203 # 200) = (102 # 100)%Q /\
  round2 (1234 # 1000) = (123 # 100)%Q /\ round2 (-5 # 1000) = (0 # 100)%Q.
Proof. repeat split. Qed.

Example plain_names :
  sql_plain "acme" = true /\ sql_plain "None" = true /\
  sql_plain "O'Brien" = false /\ sql_plain "z' AND 'a'='b" = false.
Proof. repeat split. Qed.

(** A name with a quote: when the engine rejects the text, the run
    raises at the first partner query, after three queries. *)
Example run_with_rejected_name :
  let run := run_app stable_sort rejecting_engine obrien_db (@hd_error string) 1 1 in
  fst run = Raised /\
  queries_issued (snd run) =
  [category_query 1 1; raw_query 1 1; partner_category_query 1 1 "O'Brien"].
Proof. split; reflexivity. Qed.

(** A name that turns the condition into one no row meets: when the
    engine answers both texts with no row, the category the partner earns
    in is recommended, as Out-of-Domain. *)
Example run_with_spliced_condition :
  option_map
    (map (fun entry => (category (aggregate entry), Domain entry)))
    (the_recommended_df stable_sort empty_answer_engine spliced_condition_db
       (@hd_error string) 1 1) =
  Some [(Some "Autos", Out_of_Domain)].
Proof. reflexivity. Qed.

(** * The claims *)

(** C1 fails as stated: in the table with category c01 in groups G and H,
    the row of c01 in group H is recommended although it ranks 31st and
    so is not one of the top-30 rows. *)
Lemma top30_rows_subset_fails :
  ~ incl (map aggregate (recommend stable_sort two_group_table [] []))
         (head 30 (sort_values stable_sort (round_df (clean two_group_table)))).
Proof.
  intro H. specialize (H c01_in_H).
  assert (I : In c01_in_H (map aggregate (recommend stable_sort two_group_table [] []))).
  { vm_compute. repeat (try (left; reflexivity); right). }
  specialize (H I). vm_compute in H.
  repeat (destruct H as [H|H]; [discriminate H|]). exact H.
Qed.

(** C1, amended: every row of the recommendation output is a row of the
    cleaned category table (as rounded for display) whose category is the
    category of one of the top-30 rows ranked by total_earnings
    descending, and its category is not one the partner uses; when no two
    rows of that table share a category, the row is itself one of the
    top-30 rows.  This holds however the ranking orders rows of equal
    earnings. *)
Theorem recommendations_within_top_categories
    (sort_by : Sorter) (fetched : list CategoryAggregate) (used groups : list cell)
    (r : CategoryAggregate) :
  In r (map aggregate (recommend sort_by fetched used groups)) ->
  In r (round_df (clean fetched)) /\
  In (category r)
     (map category (head 30 (sort_values sort_by (round_df (clean fetched))))) /\
  ~ In (category r) used /\
  (sorts sort_by ->
   NoDup (map category (round_df (clean fetched))) ->
   In r (head 30 (sort_values sort_by (round_df (clean fetched))))).
Proof.
  unfold recommend. rewrite aggregate_recommended_df, filter_In.
  intros [Hin Hrec]. apply py_in_In, in_recommended in Hrec.
  destruct Hrec as [Htop Hused]. unfold top_categories in Htop.
  repeat split; try assumption.
  intros S N. apply in_map_iff in Htop. destruct Htop as [r' [E Hr']].
  assert (Hr'' : In r' (round_df (clean fetched))).
  { apply in_head in Hr'. unfold sort_values in Hr'.
    exact (proj1 (in_sorted sort_by total_earnings _ _ S) Hr'). }
  rewrite <- (NoDup_map_eq category _ r' r N Hr'' Hin E). exact Hr'.
Qed.

Lemma recommendations_within_top_categories_witness :
  In boats_row
     (map aggregate
        (recommend stable_sort sample_table [Some "Autos"] [Some "Vehicles"])) /\
  In boats_row (round_df (clean sample_table)) /\
  ~ In (category boats_row) [Some "Autos"].
Proof.
  assert (I : In boats_row
                (map aggregate
                   (recommend stable_sort sample_table [Some "Autos"]
                      [Some "Vehicles"]))).
  { vm_compute. left. reflexivity. }
  split; [exact I|].
  destruct (recommendations_within_top_categories stable_sort sample_table
              [Some "Autos"] [Some "Vehicles"] boats_row I) as (H1 & _ & H3 & _).
  split; assumption.
Defined.

(** C10: the recommendation lines only add Domain.  Without Domain, the
    recommendation output is the category table they receive with rows
    left out: every entry carries a row of that table unchanged, in all
    its columns, next to the label computed from its conceptual group.
    The table they receive is the cleaned table as the first tab left it. *)
Theorem recommendation_adds_only_domain :
  forall (sort_by : Sorter) (category_df fetched : list CategoryAggregate)
         (used groups : list cell),
    map aggregate (recommended_df sort_by category_df used groups) =
      filter (fun r => py_in (category r) (recommended sort_by category_df used))
        category_df /\
    Forall (fun entry =>
              In (aggregate entry) category_df /\
              Domain entry = classify groups (Conceptual_Group (aggregate entry)))
      (recommended_df sort_by category_df used groups) /\
    Forall (fun entry => In (aggregate entry) (round_df (clean fetched)))
      (recommend sort_by fetched used groups).
Proof.
  intro sort_by.
  assert (F : forall category_df used groups,
             Forall (fun entry =>
                       In (aggregate entry) category_df /\
                       Domain entry =
                         classify groups (Conceptual_Group (aggregate entry)))
               (recommended_df sort_by category_df used groups)).
  { intros category_df used groups. apply Forall_forall. intros entry H.
    unfold recommended_df in H. apply in_map_iff in H.
    destruct H as [r [<- Hr]]. simpl. apply filter_In in Hr. tauto. }
  intros category_df fetched used groups.
  split; [apply aggregate_recommended_df|]. split; [apply F|].
  unfold recommend. eapply Forall_impl; [|apply F].
  simpl. intros entry [H _]. exact H.
Qed.

(** C4: after cleaning, every row has a category that is present and is
    not the word "none" in any letter casing; this holds for the cleaned
    table, for the table shown on the first tab, for the recommendations,
    and for every table a run of the page shows. *)
Theorem cleaned_tables_have_named_categories :
  forall (sort_by : Sorter) (engine : Engine)
         (fetched : list CategoryAggregate) (used groups : list cell)
         (db : list Event) (selectbox : list string -> option string)
         (start_date end_date : Z),
    Forall named_category (clean fetched) /\
    Forall named_category (round_df (clean fetched)) /\
    Forall (fun entry => named_category (aggregate entry))
      (recommend sort_by fetched used groups) /\
    Forall shows_named_categories
      (snd (run_app sort_by engine db selectbox start_date end_date)).
Proof.
  intros sort_by engine fetched used groups db selectbox s e.
  pose proof (clean_named fetched) as Hc.
  pose proof (round_df_named _ Hc) as Hr.
  repeat split; try assumption.
  - apply recommended_df_named. exact Hr.
  - assert (Hd : Forall named_category (the_category_df db s e)).
    { unfold the_category_df. apply round_df_named, clean_named. }
    destruct (run_app_cases sort_by engine db selectbox s e)
      as [[_ R]|[(_ & _ & R)|[(_ & _ & _ & R)|[(_ & _ & _ & _ & R)|
          (_ & _ & used' & groups' & _ & _ & _ & R)]]]];
      rewrite R; simpl snd;
      repeat (apply Forall_cons); try exact I; try apply Forall_nil;
      try exact Hd.
    + destruct (negb (is_empty _)); simpl; [|exact I].
      apply recommended_df_named. exact Hd.
    + destruct (negb (is_empty groups')); exact I.
    + destruct (negb (is_empty used')); exact I.
Qed.

(** C5: the Domain label is In-Domain exactly when the conceptual group
    is a member of the partner's groups under exact, case-sensitive string
    equality; a null group never matches; the partner's groups, whenever
    the query returns them, are a list of strings; equal arguments give
    equal labels. *)
Theorem classify_is_exact_membership :
  (forall (S : list string) (g : cell),
      classify (map Some S) g = In_Domain <-> exists s, g = Some s /\ In s S) /\
  (forall S : list string, classify (map Some S) None = Out_of_Domain) /\
  (forall (engine : Engine) (db : list Event) (start_date end_date : Z)
          (p : string) (groups : list cell),
      fetch_partner_conceptual_groups engine db start_date end_date p =
        Some groups ->
      exists S : list string, groups = map Some S) /\
  classify [Some "Sports"] (Some "sports") = Out_of_Domain /\
  (forall (S S' : list cell) (g g' : cell),
      S = S' -> g = g' -> classify S g = classify S' g').
Proof.
  assert (M : forall (S : list string) (g : cell),
             py_in g (map Some S) = true <-> exists s, g = Some s /\ In s S).
  { intros S g. rewrite py_in_In, in_map_iff. split.
    - intros [s [<- H]]. eauto.
    - intros [s [-> H]]. eauto. }
  repeat split.
  - unfold classify. intro H. apply M.
    destruct (py_in g (map Some S)); [reflexivity|discriminate].
  - unfold classify. intro H. apply M in H. rewrite H. reflexivity.
  - intro S. unfold classify.
    destruct (py_in None (map Some S)) eqn:E; [|reflexivity].
    apply M in E. destruct E as [s [E _]]. discriminate.
  - intros engine db s e p groups G. apply cells_of_strings.
    exact (partner_groups_not_null engine db s e p groups G).
  - intros S S' g g' -> ->. reflexivity.
Qed.

(** C2: in every row fetched, EPI and CTR are null when the group's
    impressions sum to zero, and otherwise are the group's earnings and
    clicks divided by its impressions; the division never faults, the
    query being a total function of the event table. *)
Theorem epi_ctr_null_safe
    (db : list Event) (start_date end_date : Z) (r : CategoryAggregate) :
  In r (fetch_category_data db start_date end_date) ->
  let g := group_of db start_date end_date (category r, Conceptual_Group r) in
  total_earnings r = Some (sum_earnings g) /\
  total_impressions r = sum_impressions g /\
  (total_impressions r = 0 -> EPI r = None /\ CTR r = None) /\
  (0 < total_impressions r ->
   EPI r = Some (sum_earnings g / inject_Z (total_impressions r))%Q /\
   CTR r = Some (inject_Z (sum_clicks g) / inject_Z (total_impressions r))%Q).
Proof.
  intros H g. apply in_fetch_category_data in H.
  set (k := (category r, Conceptual_Group r)) in *.
  assert (Et : total_earnings r = Some (sum_earnings g)) by (rewrite H; reflexivity).
  assert (Ei : total_impressions r = sum_impressions g) by (rewrite H; reflexivity).
  assert (Ee : EPI r = sql_div (sum_earnings g) (NULLIF0 (sum_impressions g)))
    by (rewrite H; reflexivity).
  assert (Ec : CTR r = sql_div (inject_Z (sum_clicks g)) (NULLIF0 (sum_impressions g)))
    by (rewrite H; reflexivity).
  rewrite Ee, Ec, Ei. unfold NULLIF0.
  repeat split; try assumption.
  - rewrite H0. reflexivity.
  - rewrite H0. reflexivity.
  - destruct (Z.eqb_spec (sum_impressions g) 0); [lia|reflexivity].
  - destruct (Z.eqb_spec (sum_impressions g) 0); [lia|reflexivity].
Qed.

Lemma epi_ctr_null_safe_witness :
  In boats_fetched (fetch_category_data sample_db 1 3) /\
  total_impressions boats_fetched = 0 /\
  EPI boats_fetched = None /\ CTR boats_fetched = None.
Proof.
  assert (I : In boats_fetched (fetch_category_data sample_db 1 3)).
  { vm_compute. right. right. left. reflexivity. }
  destruct (epi_ctr_null_safe sample_db 1 3 boats_fetched I) as (_ & _ & Z0 & _).
  assert (E : total_impressions boats_fetched = 0) by reflexivity.
  destruct (Z0 E) as [E1 E2].
  repeat split; assumption.
Defined.

(** C3: when the start date is after the end date the run is halted
    with the sidebar error and no query has been issued; a run with a
    valid range never shows that error, so the rejection is told apart
    from the no-data stop. *)
Theorem invalid_range_rejected_before_queries
    (sort_by : Sorter) (engine : Engine)
    (db : list Event) (selectbox : list string -> option string)
    (start_date end_date : Z) :
  end_date < start_date ->
  run_app sort_by engine db selectbox start_date end_date =
    (Stopped, [Display sidebar_error_invalid_range]) /\
  queries_issued (snd (run_app sort_by engine db selectbox start_date end_date)) = [] /\
  (forall (sort_by' : Sorter) (engine' : Engine)
          (db' : list Event) (selectbox' : list string -> option string)
          (start_date' end_date' : Z),
      start_date' <= end_date' ->
      ~ In (Display sidebar_error_invalid_range)
           (snd (run_app sort_by' engine' db' selectbox' start_date' end_date'))).
Proof.
  intro L. rewrite (run_app_invalid_range sort_by engine db selectbox _ _ L).
  repeat split.
  intros sort_by' engine' db' sel' s' e' V.
  destruct (run_app_cases sort_by' engine' db' sel' s' e')
    as [[W _]|[(_ & _ & R)|[(_ & _ & _ & R)|[(_ & _ & _ & _ & R)|
        (_ & _ & used' & groups' & _ & _ & _ & R)]]]];
    [lia| | | |]; rewrite R; simpl snd.
  - simpl. intuition discriminate.
  - simpl. intuition discriminate.
  - simpl. intuition discriminate.
  - destruct (negb (is_empty (recommended_df _ _ _ _)));
      destruct (negb (is_empty groups'));
      destruct (negb (is_empty used'));
      simpl; intuition discriminate.
Qed.

Lemma invalid_range_rejected_before_queries_witness :
  3 < 4 /\
  run_app stable_sort rejecting_engine sample_db (pick "acme") 4 3 =
    (Stopped, [Display sidebar_error_invalid_range]) /\
  queries_issued
    (snd (run_app stable_sort rejecting_engine sample_db (pick "acme") 4 3)) = [].
Proof.
  assert (L : 3 < 4) by lia.
  destruct (invalid_range_rejected_before_queries stable_sort rejecting_engine
              sample_db (pick "acme") 4 3 L)
    as (H1 & H2 & _).
  repeat split; assumption.
Defined.

(** C6: when both partner queries are answered and the one for the
    conceptual groups returns no row, the run goes through to its end,
    the third tab reports that no group was found, and every
    recommendation entry, in the computed table and in any table shown,
    is labelled Out-of-Domain.  (A partner whose name breaks the text of
    the query is rejected by the engine at the first partner query; that
    run raises before any group is fetched.) *)
Theorem no_groups_all_out_of_domain
    (sort_by : Sorter) (engine : Engine)
    (db : list Event) (selectbox : list string -> option string)
    (start_date end_date : Z) (used : list (cell * Q)) :
  start_date <= end_date ->
  fetch_category_data db start_date end_date <> [] ->
  the_partner_used_df engine db selectbox start_date end_date = Some used ->
  the_in_domain_groups engine db selectbox start_date end_date = Some [] ->
  fst (run_app sort_by engine db selectbox start_date end_date) = Continue tt /\
  In (Display (warning_no_groups
                 (the_selected_partner db selectbox start_date end_date)))
     (snd (run_app sort_by engine db selectbox start_date end_date)) /\
  (exists recs,
      the_recommended_df sort_by engine db selectbox start_date end_date =
        Some recs /\
      Forall (fun entry => Domain entry = Out_of_Domain) recs) /\
  (forall df,
      In (Display (dataframe_recommendations df))
         (snd (run_app sort_by engine db selectbox start_date end_date)) ->
      Forall (fun entry => Domain entry = Out_of_Domain) df).
Proof.
  intros V N U G.
  set (recs := recommended_df sort_by (the_category_df db start_date end_date)
                 (map fst used) []).
  assert (O : Forall (fun entry => Domain entry = Out_of_Domain) recs).
  { apply recommended_df_no_groups. }
  rewrite (run_app_page sort_by engine db selectbox _ _ used [] V N U G).
  cbv zeta. fold recs. simpl fst. simpl snd. simpl negb. cbv iota.
  repeat split.
  - simpl. tauto.
  - exists recs. split; [|exact O].
    unfold the_recommended_df. rewrite U, G. reflexivity.
  - intros df H.
    destruct (negb (is_empty recs)); destruct (negb (is_empty used));
      simpl in H;
      repeat (destruct H as [H|H]; [try discriminate H|]);
      try contradiction;
      injection H as <-; exact O.
Qed.

Lemma no_groups_all_out_of_domain_witness :
  the_in_domain_groups rejecting_engine sample_db (pick "cust") 1 3 = Some [] /\
  fst (run_app stable_sort rejecting_engine sample_db (pick "cust") 1 3) =
    Continue tt.
Proof.
  assert (V : 1 <= 3) by lia.
  assert (N : fetch_category_data sample_db 1 3 <> []) by (vm_compute; discriminate).
  assert (U : the_partner_used_df rejecting_engine sample_db (pick "cust") 1 3 =
              Some (partner_category_rows sample_db 1 3 "cust")) by reflexivity.
  assert (G : the_in_domain_groups rejecting_engine sample_db (pick "cust") 1 3 =
              Some []) by reflexivity.
  destruct (no_groups_all_out_of_domain stable_sort rejecting_engine sample_db
              (pick "cust") 1 3 _ V N U G)
    as (H1 & _).
  split; assumption.
Defined.

(** C7: when the partner's used categories include every category of the
    top-30 rows, nothing is recommended: the gap list and the
    recommendation output are empty, the second tab then shows the
    information message, and a run in that state whose two partner
    queries are answered goes on to its end with that message in place of
    the recommendations; nothing is raised. *)
Theorem saturated_partner_reported_as_info
    (sort_by : Sorter) (fetched : list CategoryAggregate) (used groups : list cell) :
  (forall c, In c (top_categories sort_by (round_df (clean fetched))) -> In c used) ->
  recommended sort_by (round_df (clean fetched)) used = [] /\
  recommend sort_by fetched used groups = [] /\
  (forall (selected_partner : option string) (tr : list Effect),
      tab2 selected_partner (recommend sort_by fetched used groups) tr =
      (Continue tt, tr ++ [Display (info_all_top_used selected_partner)])) /\
  (forall (engine : Engine) (db : list Event)
          (selectbox : list string -> option string)
          (start_date end_date : Z)
          (partner_used_df : list (cell * Q)) (in_domain_groups : list cell),
      start_date <= end_date ->
      fetch_category_data db start_date end_date = fetched ->
      fetched <> [] ->
      the_partner_used_df engine db selectbox start_date end_date =
        Some partner_used_df ->
      map fst partner_used_df = used ->
      the_in_domain_groups engine db selectbox start_date end_date =
        Some in_domain_groups ->
      fst (run_app sort_by engine db selectbox start_date end_date) = Continue tt /\
      In (Display (info_all_top_used
                     (the_selected_partner db selectbox start_date end_date)))
         (snd (run_app sort_by engine db selectbox start_date end_date))).
Proof.
  intro H. pose proof (saturated_recommended_empty _ _ _ H) as E.
  assert (R : forall g, recommend sort_by fetched used g = []).
  { intro g. unfold recommend. apply recommended_df_nothing_recommended. exact E. }
  split; [exact E|]. split; [apply R|]. split.
  - intros selected_partner tr. rewrite R. reflexivity.
  - intros engine db selectbox s e pu g V F N U M G.
    rewrite <- F in N.
    rewrite (run_app_page sort_by engine db selectbox s e pu g V N U G).
    cbv zeta.
    assert (T : recommended_df sort_by (the_category_df db s e) (map fst pu) g = []).
    { unfold the_category_df. rewrite F, M. apply R. }
    rewrite T. simpl. tauto.
Qed.

Lemma saturated_partner_reported_as_info_witness :
  (forall c, In c (top_categories stable_sort (round_df (clean sample_table))) ->
             In c bolt_categories) /\
  recommend stable_sort sample_table bolt_categories
    [Some "Vehicles"; Some "Pets"] = [].
Proof.
  assert (H : forall c,
             In c (top_categories stable_sort (round_df (clean sample_table))) ->
             In c bolt_categories).
  { intros c. vm_compute. intuition. }
  split; [exact H|].
  exact (proj1 (proj2 (saturated_partner_reported_as_info stable_sort sample_table
                         bolt_categories [Some "Vehicles"; Some "Pets"] H))).
Defined.

(** C8: on the table the query returns, the recommendation rows are the
    rows of the cleaned table whose category is in the gap list, in the
    order of that table: they are in descending order of total_earnings,
    and they are the query's rows, in the query's order, with rows left
    out, so that rows of equal earnings stay as the query ordered them.
    They are the rows the ranking step holds for the gap list, and both
    are descending; the ranking step's own order of equal rows does not
    reach the output. *)
Theorem recommendations_keep_ranking_order :
  forall (sort_by : Sorter) (db : list Event) (start_date end_date : Z)
         (used groups : list cell),
    let fetched := fetch_category_data db start_date end_date in
    let category_df := round_df (clean fetched) in
    let out := map aggregate (recommend sort_by fetched used groups) in
    let in_gap := fun r => py_in (category r) (recommended sort_by category_df used) in
    out = filter in_gap category_df /\
    descending total_earnings out /\
    (exists keep : CategoryAggregate -> bool, out = round_df (filter keep fetched)) /\
    (sorts sort_by ->
     Permutation out (filter in_gap (sort_values sort_by category_df)) /\
     descending total_earnings (filter in_gap (sort_values sort_by category_df))) /\
    (keeps_ranked sort_by ->
     out = filter in_gap (sort_values sort_by category_df)).
Proof.
  intros sort_by db s e used groups fetched category_df out in_gap.
  assert (D : descending total_earnings category_df).
  { subst category_df fetched.
    apply round_df_descending, clean_descending, fetch_category_data_descending. }
  assert (O : out = filter in_gap category_df).
  { subst out. unfold recommend. apply aggregate_recommended_df. }
  split; [exact O|]. split; [|split; [|split]].
  - rewrite O. apply filter_descending. exact D.
  - rewrite O. subst category_df. unfold round_df at 1, clean, dropna_rows.
    rewrite filter_map_comm, !filter_twice. eexists. reflexivity.
  - intro S. destruct (S _ total_earnings category_df) as [P D']. split.
    + rewrite O. apply filter_keeps_permutation. apply Permutation_sym. exact P.
    + apply filter_descending. exact D'.
  - intro K. rewrite O. unfold sort_values. rewrite (K _ _ _ D). reflexivity.
Qed.




(** * Further properties of the code *)

(** ** Distinct values *)

Section UniqueFacts.
Context {A : Type} (eqb : A -> A -> bool).
Hypothesis eqb_eq : forall a b, eqb a b = true <-> a = b.

Lemma existsb_eqb_In (x : A) (l : list A) : existsb (eqb x) l = true <-> In x l.
Proof.
  rewrite existsb_exists. split.
  - intros [y [Hy E]]. apply eqb_eq in E. subst. exact Hy.
  - intro H. exists x. split; [exact H | apply eqb_eq; reflexivity].
Qed.

Lemma in_unique_from_iff (x : A) (l seen : list A) :
  In x (unique_from eqb seen l) <-> In x l /\ ~ In x seen.
Proof.
  revert seen. induction l as [|y ys IH]; intro seen; simpl; [tauto|].
  destruct (existsb (eqb y) seen) eqn:E.
  - apply existsb_eqb_In in E. rewrite IH. split.
    + tauto.
    + intros [[->|H] N]; [contradiction|tauto].
  - assert (N : ~ In y seen).
    { intro H. apply existsb_eqb_In in H. congruence. }
    simpl. rewrite IH. simpl. split.
    + intros [->|[H1 H2]]; [tauto|]. split; [tauto|]. intro; apply H2; tauto.
    + intros [[->|H] N']; [tauto|].
      destruct (existsb (eqb x) [y]) eqn:Exy.
      * simpl in Exy. rewrite orb_false_r in Exy. apply eqb_eq in Exy.
        left. symmetry. exact Exy.
      * right. split; [exact H|]. intros [->|H']; [|contradiction].
        simpl in Exy. rewrite orb_false_r in Exy.
        assert (eqb x x = true) by (apply eqb_eq; reflexivity). congruence.
Qed.

Lemma in_unique_iff (x : A) (l : list A) : In x (unique eqb l) <-> In x l.
Proof. unfold unique. rewrite in_unique_from_iff. simpl. tauto. Qed.

Lemma NoDup_unique_from (l seen : list A) : NoDup (unique_from eqb seen l).
Proof.
  revert seen. induction l as [|y ys IH]; intro seen; simpl; [constructor|].
  destruct (existsb (eqb y) seen); [apply IH|].
  constructor; [|apply IH].
  rewrite in_unique_from_iff. simpl. tauto.
Qed.

Lemma NoDup_unique (l : list A) : NoDup (unique eqb l).
Proof. apply NoDup_unique_from. Qed.

(** On a list without repetition [unique] changes nothing. *)
Lemma unique_from_NoDup (l seen : list A) :
  NoDup l -> (forall x, In x l -> ~ In x seen) -> unique_from eqb seen l = l.
Proof.
  revert seen. induction l as [|y ys IH]; intros seen N D; simpl; [reflexivity|].
  inversion N as [|? ? Hy Hys]; subst.
  destruct (existsb (eqb y) seen) eqn:E.
  - apply existsb_eqb_In in E. exfalso. apply (D y); simpl; tauto.
  - f_equal. apply IH; [exact Hys|].
    intros x Hx [->|H]; [contradiction|]. apply (D x); simpl; tauto.
Qed.

Lemma unique_NoDup (l : list A) : NoDup l -> unique eqb l = l.
Proof. intro N. apply unique_from_NoDup; [exact N|]. simpl. tauto. Qed.
End UniqueFacts.

Lemma key_eqb_eq (k1 k2 : cell * cell) : key_eqb k1 k2 = true <-> k1 = k2.
Proof.
  destruct k1 as [a b], k2 as [c d]. unfold key_eqb. simpl.
  rewrite andb_true_iff, !cell_eqb_eq. split; [intros [-> ->]|intro H; inversion H]; auto.
Qed.

(** ** The selected events and their groups *)

Lemma in_selected (db : list Event) (s e : Z) (ev : Event) :
  In ev (selected db s e) <->
  In ev db /\ in_window s e ev = true /\ positive_earnings ev = true.
Proof. unfold selected. rewrite filter_In, andb_true_iff. tauto. Qed.

Lemma in_group_of (db : list Event) (s e : Z) (k : cell * cell) (ev : Event) :
  In ev (group_of db s e k) <-> In ev (selected db s e) /\ group_key ev = k.
Proof. unfold group_of. rewrite filter_In, key_eqb_eq. tauto. Qed.

Lemma positive_earnings_lt (ev : Event) :
  positive_earnings ev = true <-> (0 < est_earnings ev)%Q.
Proof. apply Qltb_lt. Qed.

Lemma Qsum_positive (l : list Q) :
  l <> [] -> Forall (fun q => (0 < q)%Q) l -> (0 < Qsum l)%Q.
Proof.
  intros N F. induction F as [|q l Hq F IH]; [congruence|].
  simpl. destruct l as [|q' l'].
  - simpl. rewrite Qplus_0_r. exact Hq.
  - apply Qlt_trans with (y := (q + 0)%Q).
    + rewrite Qplus_0_r. exact Hq.
    + apply Qplus_lt_r. apply IH. discriminate.
Qed.

Lemma keys_of_fetch (db : list Event) (s e : Z) :
  Permutation (map row_key (fetch_category_data db s e))
    (unique key_eqb (map group_key (selected db s e))).
Proof.
  unfold fetch_category_data.
  eapply Permutation_trans.
  - apply Permutation_map. apply sort_desc_permutation.
  - rewrite map_map.
    rewrite (map_ext _ (fun k => k)); [|intros [c g]; reflexivity].
    rewrite map_id. apply Permutation_refl.
Qed.

Lemma in_fetch_iff (db : list Event) (s e : Z) (r : CategoryAggregate) :
  In r (fetch_category_data db s e) <->
  r = aggregate_group db s e (row_key r) /\
  exists ev, In ev (selected db s e) /\ group_key ev = row_key r.
Proof.
  unfold fetch_category_data. rewrite in_sort_desc, in_map_iff. split.
  - intros [k [<- Hk]]. split; [reflexivity|].
    rewrite (in_unique_iff key_eqb key_eqb_eq) in Hk. apply in_map_iff in Hk.
    destruct Hk as [ev [E Hev]]. exists ev. destruct k; simpl. auto.
  - intros [E [ev [Hev K]]]. exists (row_key r). split; [symmetry; exact E|].
    rewrite (in_unique_iff key_eqb key_eqb_eq). apply in_map_iff. eauto.
Qed.

(** X1: the category query returns exactly one row for each (category,
    conceptual group) pair that has an event in the window with positive
    earnings, and no other row. *)
Theorem fetch_category_data_one_row_per_group :
  forall (db : list Event) (start_date end_date : Z),
    NoDup (map row_key (fetch_category_data db start_date end_date)) /\
    (forall k : cell * cell,
        In k (map row_key (fetch_category_data db start_date end_date)) <->
        exists ev, In ev db /\ in_window start_date end_date ev = true /\
                   positive_earnings ev = true /\ group_key ev = k).
Proof.
  intros db s e. split.
  - eapply Permutation_NoDup.
    + apply Permutation_sym. apply keys_of_fetch.
    + apply NoDup_unique. exact key_eqb_eq.
  - intro k. split.
    + intro H. apply (Permutation_in _ (keys_of_fetch db s e)) in H.
      rewrite (in_unique_iff key_eqb key_eqb_eq) in H. apply in_map_iff in H.
      destruct H as [ev [E Hev]]. apply in_selected in Hev. exists ev. tauto.
    + intros [ev (H1 & H2 & H3 & H4)].
      apply (Permutation_in _ (Permutation_sym (keys_of_fetch db s e))).
      rewrite (in_unique_iff key_eqb key_eqb_eq). apply in_map_iff.
      exists ev. split; [exact H4|]. apply in_selected. tauto.
Qed.

Lemma group_of_fetched_row (db : list Event) (s e : Z) (r : CategoryAggregate) :
  In r (fetch_category_data db s e) ->
  group_of db s e (row_key r) <> [] /\
  Forall (fun q => (0 < q)%Q) (map est_earnings (group_of db s e (row_key r))).
Proof.
  intro H. apply in_fetch_iff in H. destruct H as [_ [ev [Hev K]]]. split.
  - intro E. assert (I : In ev (group_of db s e (row_key r))).
    { apply in_group_of. tauto. }
    rewrite E in I. contradiction.
  - apply Forall_forall. intros q Hq. apply in_map_iff in Hq.
    destruct Hq as [ev' [<- Hev']]. apply in_group_of in Hev'.
    destruct Hev' as [Hs _]. apply in_selected in Hs.
    apply positive_earnings_lt. tauto.
Qed.

Lemma Qdiv_count_bounds (q : Q) (n : nat) :
  (0 < q)%Q -> (0 < n)%nat ->
  (0 < q / inject_Z (Z.of_nat n))%Q /\ (q / inject_Z (Z.of_nat n) <= q)%Q.
Proof.
  intros Hq Hn.
  assert (P : (0 < inject_Z (Z.of_nat n))%Q).
  { unfold Qlt. simpl. lia. }
  split.
  - apply Qlt_shift_div_l; [exact P|]. rewrite Qmult_0_l. exact Hq.
  - apply Qle_shift_div_r; [exact P|].
    destruct q as [a b]. unfold Qlt in Hq. unfold Qle. simpl in *. nia.
Qed.

(** X2: every row the category query returns has a total of earnings
    that is present and strictly positive, and an average that is
    positive and at most the total; the rows come in descending order of
    the total. *)
Theorem fetched_rows_have_positive_earnings :
  forall (db : list Event) (start_date end_date : Z),
    Forall (fun r =>
              exists q, total_earnings r = Some q /\ (0 < q)%Q /\
                        (0 < avg_earnings r)%Q /\ (avg_earnings r <= q)%Q)
      (fetch_category_data db start_date end_date) /\
    descending total_earnings (fetch_category_data db start_date end_date).
Proof.
  intros db s e. split; [|apply fetch_category_data_descending].
  apply Forall_forall. intros r H.
  destruct (group_of_fetched_row db s e r H) as [N F].
  apply in_fetch_iff in H. destruct H as [E _].
  set (g := group_of db s e (row_key r)) in *.
  assert (S : (0 < sum_earnings g)%Q).
  { unfold sum_earnings. apply Qsum_positive; [|exact F].
    destruct g; [congruence|discriminate]. }
  assert (L : (0 < List.length g)%nat).
  { destruct g; [congruence|simpl; lia]. }
  exists (sum_earnings g).
  assert (Et : total_earnings r = Some (sum_earnings g)) by (rewrite E; reflexivity).
  assert (Ea : avg_earnings r =
               (sum_earnings g / inject_Z (Z.of_nat (List.length g)))%Q)
    by (rewrite E; reflexivity).
  rewrite Ea. destruct (Qdiv_count_bounds _ _ S L) as [B1 B2]. tauto.
Qed.

Lemma fetched_total_present (db : list Event) (s e : Z) (r : CategoryAggregate) :
  In r (fetch_category_data db s e) -> exists q, total_earnings r = Some q.
Proof.
  intro H. apply in_fetch_iff in H. destruct H as [E _].
  rewrite E. simpl. eauto.
Qed.

Lemma named_category_iff (r : CategoryAggregate) :
  named_category r <->
  exists s, category r = Some s /\ String.eqb (lower s) "none" = false.
Proof.
  unfold named_category. split; intros [s [E H]]; exists s; split; try exact E.
  - destruct (String.eqb_spec (lower s) "none") as [L|L]; [|reflexivity].
    apply lower_none_iff in L. contradiction.
  - intro N. apply lower_none_iff in N. rewrite N in H. discriminate.
Qed.

(** X3: cleaning removes a fetched row only for its category: a row of
    the category query is in the cleaned table exactly when its category
    is present and is not "none" in any casing; the null check on
    total_earnings never removes a fetched row. *)
Theorem clean_keeps_named_fetched_rows :
  forall (db : list Event) (start_date end_date : Z) (r : CategoryAggregate),
    In r (clean (fetch_category_data db start_date end_date)) <->
    In r (fetch_category_data db start_date end_date) /\ named_category r.
Proof.
  intros db s e r. split.
  - intro H. apply in_clean in H. tauto.
  - intros [H N]. unfold clean, dropna_rows. rewrite !filter_In.
    apply named_category_iff in N. destruct N as [c [Ec Hc]].
    destruct (fetched_total_present db s e r H) as [q Eq].
    unfold not_none. rewrite Ec, Eq, Hc. auto.
Qed.

(** X4: in the table of the first tab, EPI is null exactly in the rows
    whose impressions sum to zero, and so is CTR: rounding keeps the
    nulls and makes no new one. *)
Theorem displayed_nulls_are_zero_impressions :
  forall (db : list Event) (start_date end_date : Z),
    Forall (fun r =>
              (EPI r = None <-> total_impressions r = 0) /\
              (CTR r = None <-> total_impressions r = 0))
      (the_category_df db start_date end_date).
Proof.
  intros db s e. apply Forall_forall. intros r H.
  unfold the_category_df in H. apply in_round_df in H.
  destruct H as [r0 [-> H0]]. apply in_clean in H0. destruct H0 as [H0 _].
  apply in_fetch_iff in H0. destruct H0 as [E _].
  set (g := group_of db s e (row_key r0)) in *.
  assert (Ei : total_impressions r0 = sum_impressions g) by (rewrite E; reflexivity).
  assert (Ee : EPI r0 = sql_div (sum_earnings g) (NULLIF0 (sum_impressions g)))
    by (rewrite E; reflexivity).
  assert (Ec : CTR r0 = sql_div (inject_Z (sum_clicks g)) (NULLIF0 (sum_impressions g)))
    by (rewrite E; reflexivity).
  simpl. rewrite Ee, Ec, Ei. unfold NULLIF0.
  destruct (Z.eqb_spec (sum_impressions g) 0) as [Z0|Z0]; simpl.
  - tauto.
  - split; split; intro H; [discriminate|contradiction|discriminate|contradiction].
Qed.


(** ** Runs of the page *)

Lemma fetch_empty_iff (db : list Event) (s e : Z) :
  fetch_category_data db s e = [] <-> selected db s e = [].
Proof.
  split; intro H.
  - destruct (selected db s e) as [|ev l] eqn:S; [reflexivity|exfalso].
    pose proof (keys_of_fetch db s e) as P. rewrite H, S in P. simpl in P.
    apply Permutation_nil in P.
    assert (I : In (group_key ev) (unique key_eqb (group_key ev :: map group_key l))).
    { rewrite (in_unique_iff key_eqb key_eqb_eq). left. reflexivity. }
    rewrite P in I. contradiction.
  - unfold fetch_category_data. rewrite H. reflexivity.
Qed.

Lemma selected_empty_iff (db : list Event) (s e : Z) :
  selected db s e = [] <->
  forall ev, In ev db -> in_window s e ev = true -> positive_earnings ev = false.
Proof.
  split.
  - intros H ev I W. destruct (positive_earnings ev) eqn:P; [exfalso|reflexivity].
    assert (J : In ev (selected db s e)) by (apply in_selected; tauto).
    rewrite H in J. contradiction.
  - intro H. destruct (selected db s e) as [|ev l] eqn:S; [reflexivity|exfalso].
    assert (J : In ev (selected db s e)) by (rewrite S; left; reflexivity).
    apply in_selected in J. destruct J as (I & W & P).
    rewrite (H ev I W) in P. discriminate.
Qed.

(** X5: with a valid date range, the run is halted with the no-data
    warning, after the category and raw queries and before any partner
    query, exactly when no event of the window has positive earnings. *)
Theorem no_data_stop_iff_no_positive_event
    (sort_by : Sorter) (engine : Engine)
    (db : list Event) (selectbox : list string -> option string)
    (start_date end_date : Z) :
  start_date <= end_date ->
  ((forall ev, In ev db -> in_window start_date end_date ev = true ->
               positive_earnings ev = false) <->
   run_app sort_by engine db selectbox start_date end_date =
   (Stopped,
    [Issue (category_query start_date end_date);
     Issue (raw_query start_date end_date);
     Display warning_no_data])).
Proof.
  intro V. rewrite <- selected_empty_iff, <- fetch_empty_iff. split.
  - intro F. apply run_app_no_data; assumption.
  - intro R.
    destruct (run_app_cases sort_by engine db selectbox start_date end_date)
      as [[W _]|[(_ & F & _)|[(_ & _ & _ & R')|[(_ & _ & _ & _ & R')|
          (_ & _ & used' & groups' & _ & _ & _ & R')]]]];
      [lia|exact F| | |]; rewrite R' in R; discriminate R.
Qed.

Lemma no_data_stop_iff_no_positive_event_witness :
  20 <= 30 /\
  run_app stable_sort rejecting_engine sample_db (pick "acme") 20 30 =
  (Stopped, [Issue (category_query 20 30); Issue (raw_query 20 30);
             Display warning_no_data]).
Proof.
  assert (V : 20 <= 30) by lia.
  split; [exact V|].
  apply (proj1 (no_data_stop_iff_no_positive_event stable_sort rejecting_engine
                  sample_db (pick "acme") 20 30 V)).
  intros ev I W. simpl in I.
  repeat (destruct I as [<-|I]; [first [discriminate W | reflexivity]|]).
  contradiction.
Defined.

(** X6: a run issues no query when the range is invalid and the category
    and raw queries when the window has no data.  Otherwise it issues
    those two and the partner-category query; if the engine rejects that
    one the run raises there, else the partner-groups query follows, and
    the run raises if that one is rejected.  All queries carry the dates
    of the sidebar, and both partner queries carry the selected partner
    as the f-string prints it. *)
Theorem queries_issued_by_a_run :
  forall (sort_by : Sorter) (engine : Engine)
         (db : list Event) (selectbox : list string -> option string)
         (start_date end_date : Z),
    let p := format_partner (the_selected_partner db selectbox start_date end_date) in
    let run := run_app sort_by engine db selectbox start_date end_date in
    let queries := queries_issued (snd run) in
    let used := the_partner_used_df engine db selectbox start_date end_date in
    let groups := the_in_domain_groups engine db selectbox start_date end_date in
    (end_date < start_date /\ queries = []) \/
    (start_date <= end_date /\
     fetch_category_data db start_date end_date = [] /\
     queries = [category_query start_date end_date;
                raw_query start_date end_date]) \/
    (start_date <= end_date /\
     fetch_category_data db start_date end_date <> [] /\
     used = None /\ fst run = Raised /\
     queries = [category_query start_date end_date;
                raw_query start_date end_date;
                partner_category_query start_date end_date p]) \/
    (start_date <= end_date /\
     fetch_category_data db start_date end_date <> [] /\
     used <> None /\
     (groups = None <-> fst run = Raised) /\
     (groups <> None <-> fst run = Continue tt) /\
     queries = [category_query start_date end_date;
                raw_query start_date end_date;
                partner_category_query start_date end_date p;
                partner_groups_query start_date end_date p]).
Proof.
  intros sort_by engine db selectbox s e p run queries used groups.
  subst queries run used groups.
  destruct (run_app_cases sort_by engine db selectbox s e)
    as [[W R]|[(V & F & R)|[(V & F & U & R)|[(V & F & [u U] & G & R)|
        (V & F & u & g & U & G & _ & R)]]]]; rewrite R.
  - left. split; [exact W|reflexivity].
  - right. left. repeat split; assumption.
  - right. right. left. repeat split; assumption.
  - right. right. right. rewrite U, G.
    repeat split; try assumption; try reflexivity; try discriminate;
      intro H; try discriminate H; congruence.
  - right. right. right. rewrite U, G. cbn [fst snd].
    split; [exact V|]. split; [exact F|]. split; [discriminate|].
    split; [split; discriminate|]. split; [split; [reflexivity|discriminate]|].
    reflexivity.
Qed.

(** ** The partner queries *)

Lemma in_selected_for_partner (db : list Event) (s e : Z) (p : string) (ev : Event) :
  In ev (selected_for_partner db s e p) <->
  In ev (selected db s e) /\ partner ev = p.
Proof.
  unfold selected_for_partner. rewrite filter_In, String.eqb_eq. tauto.
Qed.

Lemma filter_all {A : Type} (f : A -> bool) (l : list A) :
  (forall x, In x l -> f x = true) -> filter f l = l.
Proof.
  induction l as [|a l IH]; simpl; intro H; [reflexivity|].
  rewrite (H a (or_introl eq_refl)). f_equal. apply IH. auto.
Qed.

Lemma fst_filter_pairs {A B : Type} (t : A -> B) (f : A * B -> bool) (l : list A) :
  map fst (filter f (map (fun c => (c, t c)) l)) = filter (fun c => f (c, t c)) l.
Proof.
  induction l as [|a l IH]; simpl; [reflexivity|].
  destruct (f (a, t a)); simpl; congruence.
Qed.

Lemma category_of_selected_is_fetched (db : list Event) (s e : Z) (ev : Event) :
  In ev (selected db s e) ->
  exists r, In r (fetch_category_data db s e) /\
            category r = ev_category ev /\
            Conceptual_Group r = ev_Conceptual_Group ev.
Proof.
  intro H. exists (aggregate_group db s e (group_key ev)).
  split; [|split; reflexivity].
  apply in_fetch_iff. split; [reflexivity|]. exists ev. split; [exact H|reflexivity].
Qed.

Lemma in_partner_categories (db : list Event) (s e : Z) (p : string) (c : cell) :
  In c (map fst (partner_category_rows db s e p)) <->
  c <> None /\
  exists ev, In ev (selected_for_partner db s e p) /\ ev_category ev = c.
Proof.
  unfold partner_category_rows. cbv zeta.
  set (rows := filter _ (selected_for_partner db s e p)).
  assert (R : forall ev, In ev rows <->
                         In ev (selected_for_partner db s e p) /\ ev_category ev <> None).
  { intro ev. subst rows. rewrite filter_In.
    destruct (ev_category ev); split; intros [H1 H2]; split;
      congruence || assumption || discriminate. }
  rewrite fst_filter_pairs, filter_In. cbn [snd].
  rewrite (in_unique_iff cell_eqb cell_eqb_eq), in_map_iff. split.
  - intros [[ev [E Hev]] _]. apply R in Hev. destruct Hev as [Hev Hn].
    split; [congruence|eauto].
  - intros [Hn [ev [Hev E]]].
    assert (Hr : In ev rows) by (apply R; split; [exact Hev|congruence]).
    split; [eauto|]. apply Qltb_lt. apply Qsum_positive.
    + intro Z0. assert (I : In ev (filter (fun ev0 => cell_eqb (ev_category ev0) c) rows)).
      { apply filter_In. split; [exact Hr|]. apply cell_eqb_eq. exact E. }
      apply (in_map est_earnings) in I. rewrite Z0 in I. contradiction.
    + apply Forall_forall. intros q Hq. apply in_map_iff in Hq.
      destruct Hq as [ev' [<- Hev']]. apply filter_In in Hev'.
      destruct Hev' as [Hev' _]. apply R in Hev'. destruct Hev' as [Hev' _].
      apply in_selected_for_partner in Hev'. destruct Hev' as [Hev' _].
      apply in_selected in Hev'. apply positive_earnings_lt. tauto.
Qed.

Lemma partner_category_rows_facts (db : list Event) (s e : Z) (p : string) :
  let used := partner_category_rows db s e p in
  (forall c : cell,
      In c (map fst used) <->
      c <> None /\
      exists ev, In ev db /\ partner ev = p /\
                 in_window s e ev = true /\
                 positive_earnings ev = true /\ ev_category ev = c) /\
  NoDup (map fst used) /\
  Forall (fun row => (0 < snd row)%Q) used /\
  incl (map fst used) (map category (fetch_category_data db s e)).
Proof.
  intro used. subst used. split; [|split; [|split]].
  - intro c. rewrite in_partner_categories. split.
    + intros [Hn [ev [Hev E]]]. split; [exact Hn|].
      apply in_selected_for_partner in Hev. destruct Hev as [Hs Hp].
      apply in_selected in Hs. exists ev. tauto.
    + intros [Hn [ev (H1 & H2 & H3 & H4 & H5)]]. split; [exact Hn|].
      exists ev. split; [|exact H5].
      apply in_selected_for_partner. split; [|exact H2]. apply in_selected. tauto.
  - unfold partner_category_rows. cbv zeta. rewrite fst_filter_pairs.
    apply NoDup_filter. apply NoDup_unique. exact cell_eqb_eq.
  - apply Forall_forall. intros row H. unfold partner_category_rows in H.
    cbv zeta in H. apply filter_In in H. destruct H as [_ H].
    apply Qltb_lt. exact H.
  - intros c H. apply in_partner_categories in H. destruct H as [_ [ev [Hev E]]].
    apply in_selected_for_partner in Hev. destruct Hev as [Hs _].
    destruct (category_of_selected_is_fetched db s e ev Hs) as [r (Hr & Ec & _)].
    apply in_map_iff. exists r. split; [congruence|exact Hr].
Qed.

(** X7: for a partner whose name is a plain literal, the partner-category
    query is answered, and its categories are exactly the non-null
    categories in which the partner has an event of the window with
    positive earnings (the HAVING clause removes none of them); each
    appears once, with strictly positive earnings, and each is the
    category of a row of the category query for the same window. *)
Theorem partner_categories_are_the_earning_ones
    (engine : Engine) (db : list Event) (start_date end_date : Z) (p : string) :
  sql_plain p = true ->
  exists used,
    fetch_partner_category_data engine db start_date end_date p = Some used /\
    (forall c : cell,
        In c (map fst used) <->
        c <> None /\
        exists ev, In ev db /\ partner ev = p /\
                   in_window start_date end_date ev = true /\
                   positive_earnings ev = true /\ ev_category ev = c) /\
    NoDup (map fst used) /\
    Forall (fun row => (0 < snd row)%Q) used /\
    incl (map fst used) (map category (fetch_category_data db start_date end_date)).
Proof.
  intro Pl. exists (partner_category_rows db start_date end_date p).
  split; [apply plain_partner_categories; exact Pl|].
  apply partner_category_rows_facts.
Qed.

Lemma partner_categories_are_the_earning_ones_witness :
  sql_plain "bolt" = true /\
  exists used,
    fetch_partner_category_data rejecting_engine sample_db 1 3 "bolt" = Some used /\
    NoDup (map fst used).
Proof.
  assert (Pl : sql_plain "bolt" = true) by reflexivity.
  split; [exact Pl|].
  destruct (partner_categories_are_the_earning_ones rejecting_engine sample_db 1 3
              "bolt" Pl) as [used (E & _ & N & _)].
  exists used. split; assumption.
Defined.

Lemma in_partner_groups (db : list Event) (s e : Z) (p : string) (g : cell) :
  In g (partner_groups db s e p) <->
  g <> None /\
  exists ev, In ev (selected_for_partner db s e p) /\ ev_Conceptual_Group ev = g.
Proof.
  unfold partner_groups, partner_group_rows, dropna.
  rewrite (in_unique_iff cell_eqb cell_eqb_eq), filter_In.
  rewrite (in_unique_iff cell_eqb cell_eqb_eq), in_map_iff. split.
  - intros [[ev [E Hev]] Hg]. apply filter_In in Hev.
    split; [destruct g; [discriminate|discriminate Hg]|]. exists ev. tauto.
  - intros [Hn [ev [Hev E]]]. split.
    + exists ev. split; [exact E|]. apply filter_In. split; [exact Hev|].
      rewrite E. destruct g; [reflexivity|congruence].
    + destruct g; [reflexivity|congruence].
Qed.

Lemma partner_groups_facts :
  forall (db : list Event) (start_date end_date : Z) (p : string),
    let groups := partner_groups db start_date end_date p in
    (forall g : cell,
        In g groups <->
        g <> None /\
        exists ev, In ev db /\ partner ev = p /\
                   in_window start_date end_date ev = true /\
                   positive_earnings ev = true /\ ev_Conceptual_Group ev = g) /\
    NoDup groups /\
    groups = partner_group_rows db start_date end_date p /\
    (groups = [] <->
     forall ev, In ev db -> partner ev = p ->
                in_window start_date end_date ev = true ->
                positive_earnings ev = true -> ev_Conceptual_Group ev = None) /\
    incl groups (map Conceptual_Group (fetch_category_data db start_date end_date)).
Proof.
  intros db s e p groups.
  assert (M : forall g : cell,
             In g groups <->
             g <> None /\
             exists ev, In ev db /\ partner ev = p /\ in_window s e ev = true /\
                        positive_earnings ev = true /\ ev_Conceptual_Group ev = g).
  { intro g. subst groups. rewrite in_partner_groups. split.
    - intros [Hn [ev [Hev E]]]. split; [exact Hn|].
      apply in_selected_for_partner in Hev. destruct Hev as [Hs Hp].
      apply in_selected in Hs. exists ev. tauto.
    - intros [Hn [ev (H1 & H2 & H3 & H4 & H5)]]. split; [exact Hn|].
      exists ev. split; [|exact H5]. apply in_selected_for_partner.
      split; [|exact H2]. apply in_selected. tauto. }
  split; [exact M|]. split; [|split; [|split]].
  - subst groups. unfold partner_groups.
    apply NoDup_unique. exact cell_eqb_eq.
  - subst groups. unfold partner_groups, partner_group_rows.
    set (df := unique cell_eqb (map ev_Conceptual_Group _)).
    assert (D : dropna df = df).
    { unfold dropna. apply filter_all. intros g Hg. subst df.
      rewrite (in_unique_iff cell_eqb cell_eqb_eq) in Hg.
      apply in_map_iff in Hg. destruct Hg as [ev [<- Hev]].
      apply filter_In in Hev. tauto. }
    rewrite D. apply unique_NoDup; [exact cell_eqb_eq|].
    subst df. apply NoDup_unique. exact cell_eqb_eq.
  - split.
    + intros E ev H1 H2 H3 H4.
      destruct (ev_Conceptual_Group ev) as [g|] eqn:G; [exfalso|reflexivity].
      assert (I : In (Some g) groups).
      { apply M. split; [discriminate|]. exists ev. tauto. }
      rewrite E in I. contradiction.
    + intro H. destruct groups as [|g l] eqn:G; [reflexivity|exfalso].
      assert (I : In g (g :: l)) by (left; reflexivity).
      apply M in I. destruct I as [Hn [ev (H1 & H2 & H3 & H4 & H5)]].
      rewrite (H ev H1 H2 H3 H4) in H5. congruence.
  - intros g Hg. subst groups. apply in_partner_groups in Hg.
    destruct Hg as [_ [ev [Hev E]]].
    apply in_selected_for_partner in Hev. destruct Hev as [Hs _].
    destruct (category_of_selected_is_fetched db s e ev Hs) as [r (Hr & _ & Eg)].
    apply in_map_iff. exists r. split; [congruence|exact Hr].
Qed.


(** X8: for a partner whose name is a plain literal, the partner-groups
    query is answered, and the conceptual groups are exactly the non-null
    groups in which the partner has an event of the window with positive
    earnings; each appears once; the list is the column the query
    returns, the later [dropna] and [unique] changing nothing; it is empty
    exactly when all such events have a null group; and each group is the
    group of a row of the category query for the same window. *)
Theorem partner_groups_are_the_earning_ones
    (engine : Engine) (db : list Event) (start_date end_date : Z) (p : string) :
  sql_plain p = true ->
  exists groups,
    fetch_partner_conceptual_groups engine db start_date end_date p = Some groups /\
    (forall g : cell,
        In g groups <->
        g <> None /\
        exists ev, In ev db /\ partner ev = p /\
                   in_window start_date end_date ev = true /\
                   positive_earnings ev = true /\ ev_Conceptual_Group ev = g) /\
    NoDup groups /\
    groups = partner_group_rows db start_date end_date p /\
    (groups = [] <->
     forall ev, In ev db -> partner ev = p ->
                in_window start_date end_date ev = true ->
                positive_earnings ev = true -> ev_Conceptual_Group ev = None) /\
    incl groups (map Conceptual_Group (fetch_category_data db start_date end_date)).
Proof.
  intro Pl. exists (partner_groups db start_date end_date p).
  split; [apply plain_partner_groups; exact Pl|].
  apply partner_groups_facts.
Qed.

Lemma partner_groups_are_the_earning_ones_witness :
  sql_plain "bolt" = true /\
  exists groups,
    fetch_partner_conceptual_groups rejecting_engine sample_db 1 3 "bolt" =
      Some groups /\
    NoDup groups.
Proof.
  assert (Pl : sql_plain "bolt" = true) by reflexivity.
  split; [exact Pl|].
  destruct (partner_groups_are_the_earning_ones rejecting_engine sample_db 1 3
              "bolt" Pl) as [groups (E & _ & N & _)].
  exists groups. split; assumption.
Defined.

(** ** The partner drop-down *)

Lemma insert_string_permutation (s : string) (l : list string) :
  Permutation (insert_string s l) (s :: l).
Proof.
  induction l as [|x xs IH]; simpl; [apply Permutation_refl|].
  destruct (String.leb s x); [apply Permutation_refl|].
  apply Permutation_trans with (x :: s :: xs).
  - apply perm_skip. exact IH.
  - apply perm_swap.
Qed.

Lemma sorted_permutation (l : list string) : Permutation (sorted l) l.
Proof.
  unfold sorted. induction l as [|s l IH]; simpl; [apply perm_nil|].
  apply Permutation_trans with (s :: fold_right insert_string [] l).
  - apply insert_string_permutation.
  - apply perm_skip. exact IH.
Qed.

Lemma insert_string_Sorted (s : string) (l : list string) :
  Sorted (fun a b => String.leb a b = true) l ->
  Sorted (fun a b => String.leb a b = true) (insert_string s l).
Proof.
  induction 1 as [|x xs Hs IH Hx]; simpl.
  - constructor; constructor.
  - destruct (String.leb s x) eqn:E.
    + constructor; [constructor; assumption|]. constructor. exact E.
    + constructor; [exact IH|].
      assert (L : String.leb x s = true).
      { destruct (String.leb_total s x) as [T|T]; [congruence|exact T]. }
      destruct xs as [|y ys]; simpl.
      * constructor. exact L.
      * destruct (String.leb s y); constructor; [exact L|].
        inversion Hx; assumption.
Qed.

Lemma sorted_Sorted (l : list string) :
  Sorted (fun a b => String.leb a b = true) (sorted l).
Proof.
  unfold sorted. induction l as [|s l IH]; simpl; [constructor|].
  apply insert_string_Sorted. exact IH.
Qed.

Lemma in_raw_partners (db : list Event) (s e : Z) (p : string) :
  In p (map snd (fetch_raw_data db s e)) <->
  exists ev, In ev (selected db s e) /\ partner ev = p.
Proof.
  unfold fetch_raw_data.
  assert (Q : forall a b : cell * string,
             cell_eqb (fst a) (fst b) && String.eqb (snd a) (snd b) = true <-> a = b).
  { intros [a1 a2] [b1 b2]. simpl. rewrite andb_true_iff, cell_eqb_eq, String.eqb_eq.
    split; [intros [-> ->]; reflexivity|intro H; inversion H; auto]. }
  rewrite in_map_iff. split.
  - intros [[c q] [E H]]. simpl in E. subst q.
    rewrite (in_unique_iff _ Q) in H. apply in_map_iff in H.
    destruct H as [ev [E Hev]]. inversion E. eauto.
  - intros [ev [Hev E]]. exists (ev_category ev, partner ev). split; [exact E|].
    rewrite (in_unique_iff _ Q). apply in_map_iff. eauto.
Qed.

(** X9: the options of the partner drop-down are exactly the partners
    that have an event of the window with positive earnings, each once,
    in ascending string order; their number is the Partners metric; the
    list is empty exactly when the category query returns no row, so a
    run that passes the no-data check always offers a partner. *)
Theorem partner_list_sorted_distinct_complete :
  forall (db : list Event) (start_date end_date : Z),
    let options := partner_list db start_date end_date in
    Sorted (fun a b => String.leb a b = true) options /\
    NoDup options /\
    (forall p : string,
        In p options <->
        exists ev, In ev db /\ in_window start_date end_date ev = true /\
                   positive_earnings ev = true /\ partner ev = p) /\
    metric_partners (fetch_raw_data db start_date end_date) = List.length options /\
    (options = [] <-> fetch_category_data db start_date end_date = []).
Proof.
  intros db s e options.
  assert (P : Permutation options
                (unique String.eqb (map snd (fetch_raw_data db s e)))).
  { apply sorted_permutation. }
  assert (M : forall p, In p options <->
                        exists ev, In ev (selected db s e) /\ partner ev = p).
  { intro p. split; intro H.
    - apply (Permutation_in _ P) in H.
      rewrite (in_unique_iff String.eqb String.eqb_eq) in H.
      apply in_raw_partners. exact H.
    - apply (Permutation_in _ (Permutation_sym P)).
      rewrite (in_unique_iff String.eqb String.eqb_eq).
      apply in_raw_partners. exact H. }
  split; [apply sorted_Sorted|]. split; [|split; [|split]].
  - apply (Permutation_NoDup (Permutation_sym P)).
    apply NoDup_unique. exact String.eqb_eq.
  - intro p. rewrite M. split; intros [ev H]; exists ev.
    + destruct H as [H E]. apply in_selected in H. tauto.
    + split; [apply in_selected|]; tauto.
  - unfold metric_partners. symmetry. apply Permutation_length. exact P.
  - rewrite fetch_empty_iff. split; intro H.
    + destruct (selected db s e) as [|ev l] eqn:S; [reflexivity|exfalso].
      assert (I : In (partner ev) options).
      { apply M. exists ev. split; [try rewrite S; left|]; reflexivity. }
      rewrite H in I. contradiction.
    + destruct options as [|p l] eqn:O; [reflexivity|exfalso].
      assert (I : In p (p :: l)) by (left; reflexivity).
      apply M in I. destruct I as [ev [Hev _]]. try rewrite H in Hev. contradiction.
Qed.

(** ** What a recommendation means in terms of the events *)

Lemma in_recommended_df (sort_by : Sorter) (category_df : list CategoryAggregate)
    (used groups : list cell) (entry : RecommendationEntry) :
  In entry (recommended_df sort_by category_df used groups) ->
  In (aggregate entry) category_df /\
  ~ In (category (aggregate entry)) used /\
  Domain entry = classify groups (Conceptual_Group (aggregate entry)).
Proof.
  unfold recommended_df. intro H.
  apply in_map_iff in H. destruct H as [r [<- Hr]]. simpl.
  apply filter_In in Hr. destruct Hr as [Hr Hc].
  apply py_in_In, in_recommended in Hc. tauto.
Qed.

Lemma plain_recommended_df (sort_by : Sorter) (engine : Engine) (db : list Event)
    (selectbox : list string -> option string) (s e : Z) :
  let p := format_partner (the_selected_partner db selectbox s e) in
  sql_plain p = true ->
  the_partner_used_df engine db selectbox s e =
    Some (partner_category_rows db s e p) /\
  the_in_domain_groups engine db selectbox s e = Some (partner_groups db s e p) /\
  the_recommended_df sort_by engine db selectbox s e =
    Some (recommended_df sort_by (the_category_df db s e)
            (map fst (partner_category_rows db s e p)) (partner_groups db s e p)).
Proof.
  intros p Pl.
  assert (U : the_partner_used_df engine db selectbox s e =
              Some (partner_category_rows db s e p)).
  { unfold the_partner_used_df. apply plain_partner_categories. exact Pl. }
  assert (G : the_in_domain_groups engine db selectbox s e =
              Some (partner_groups db s e p)).
  { unfold the_in_domain_groups. apply plain_partner_groups. exact Pl. }
  split; [exact U|]. split; [exact G|].
  unfold the_recommended_df. rewrite U, G. reflexivity.
Qed.

(** X10: in a run whose selected partner has a plain name, the
    recommendations are computed, and every recommended row has a named
    category in which the selected partner has no event of the window
    with positive earnings. *)
Theorem recommended_categories_are_unearned
    (sort_by : Sorter) (engine : Engine) (db : list Event)
    (selectbox : list string -> option string) (start_date end_date : Z) :
  let p := format_partner (the_selected_partner db selectbox start_date end_date) in
  sql_plain p = true ->
  exists recs,
    the_recommended_df sort_by engine db selectbox start_date end_date = Some recs /\
    Forall (fun entry =>
              exists c, category (aggregate entry) = Some c /\
                        ~ none_any_case c /\
                        ~ exists ev, In ev db /\ partner ev = p /\
                                     in_window start_date end_date ev = true /\
                                     positive_earnings ev = true /\
                                     ev_category ev = Some c)
      recs.
Proof.
  intros p Pl.
  destruct (plain_recommended_df sort_by engine db selectbox start_date end_date Pl)
    as (_ & _ & R).
  eexists. split; [exact R|].
  apply Forall_forall. intros entry H.
  apply in_recommended_df in H. destruct H as (Hr & Hu & _).
  assert (N : named_category (aggregate entry)).
  { pose proof (round_df_named _
                  (clean_named (fetch_category_data db start_date end_date))) as F.
    rewrite Forall_forall in F. apply F. exact Hr. }
  destruct N as [c [Ec Hc]]. exists c. split; [exact Ec|]. split; [exact Hc|].
  intros [ev (H1 & H2 & H3 & H4 & H5)]. apply Hu. rewrite Ec.
  apply in_partner_categories.
  split; [discriminate|]. exists ev. split; [|exact H5].
  apply in_selected_for_partner. split; [|exact H2]. apply in_selected. tauto.
Qed.

Lemma recommended_categories_are_unearned_witness :
  sql_plain (format_partner (the_selected_partner sample_db (pick "acme") 1 3)) = true /\
  exists recs,
    the_recommended_df stable_sort rejecting_engine sample_db (pick "acme") 1 3 =
      Some recs.
Proof.
  assert (Pl : sql_plain
                 (format_partner (the_selected_partner sample_db (pick "acme") 1 3)) =
               true) by reflexivity.
  split; [exact Pl|].
  destruct (recommended_categories_are_unearned stable_sort rejecting_engine
              sample_db (pick "acme") 1 3 Pl) as [recs [E _]].
  exists recs. exact E.
Defined.

(** X11: in a run whose selected partner has a plain name, a recommended
    row is labelled In-Domain exactly when its conceptual group is not
    null and the selected partner has an event of the window with
    positive earnings in that group. *)
Theorem in_domain_means_partner_earns_in_group
    (sort_by : Sorter) (engine : Engine) (db : list Event)
    (selectbox : list string -> option string) (start_date end_date : Z) :
  let p := format_partner (the_selected_partner db selectbox start_date end_date) in
  sql_plain p = true ->
  exists recs,
    the_recommended_df sort_by engine db selectbox start_date end_date = Some recs /\
    Forall (fun entry =>
              Domain entry = In_Domain <->
              exists g, Conceptual_Group (aggregate entry) = Some g /\
                        exists ev, In ev db /\ partner ev = p /\
                                   in_window start_date end_date ev = true /\
                                   positive_earnings ev = true /\
                                   ev_Conceptual_Group ev = Some g)
      recs.
Proof.
  intros p Pl.
  destruct (plain_recommended_df sort_by engine db selectbox start_date end_date Pl)
    as (_ & _ & R).
  eexists. split; [exact R|].
  apply Forall_forall. intros entry H.
  apply in_recommended_df in H. destruct H as (_ & _ & D).
  rewrite D. unfold classify. fold p.
  set (x := Conceptual_Group (aggregate entry)).
  assert (C : py_in x (partner_groups db start_date end_date p) = true <->
              exists g, x = Some g /\
                        exists ev, In ev db /\ partner ev = p /\
                                   in_window start_date end_date ev = true /\
                                   positive_earnings ev = true /\
                                   ev_Conceptual_Group ev = Some g).
  { rewrite py_in_In, in_partner_groups. split.
    - intros [Hn [ev [Hev E]]]. destruct x as [g|]; [|congruence].
      exists g. split; [reflexivity|].
      apply in_selected_for_partner in Hev. destruct Hev as [Hs Hp].
      apply in_selected in Hs. exists ev. tauto.
    - intros [g [-> [ev (H1 & H2 & H3 & H4 & H5)]]]. split; [discriminate|].
      exists ev. split; [|exact H5]. apply in_selected_for_partner.
      split; [|exact H2]. apply in_selected. tauto. }
  destruct (py_in x (partner_groups db start_date end_date p)).
  - split; [intros _; apply C; reflexivity|reflexivity].
  - split; [discriminate|]. intro H. apply C in H. discriminate.
Qed.

Lemma in_domain_means_partner_earns_in_group_witness :
  sql_plain (format_partner (the_selected_partner sample_db (pick "acme") 1 3)) = true /\
  exists recs,
    the_recommended_df stable_sort rejecting_engine sample_db (pick "acme") 1 3 =
      Some recs.
Proof.
  assert (Pl : sql_plain
                 (format_partner (the_selected_partner sample_db (pick "acme") 1 3)) =
               true) by reflexivity.
  split; [exact Pl|].
  destruct (in_domain_means_partner_earns_in_group stable_sort rejecting_engine
              sample_db (pick "acme") 1 3 Pl) as [recs [E _]].
  exists recs. exact E.
Defined.

(** ** Rounding for display *)

Lemma round2_bounds (q : Q) :
  (q <= round2 q + (1 # 200))%Q /\ (round2 q <= q + (1 # 200))%Q.
Proof.
  destruct q as [n d]. unfold round2.
  pose proof (rint_near (n * 100) (d * 1)) as B.
  change ((n # d) * 100)%Q with (n * 100 # d * 1)%Q.
  set (z := rint (n * 100 # d * 1)) in *.
  rewrite Pos.mul_1_r in B.
  unfold Qle, Qplus. simpl. split; lia.
Qed.

Lemma round2_idempotent (q : Q) : round2 (round2 q) = round2 q.
Proof.
  unfold round2 at 1. f_equal.
  generalize (rint (q * 100)). intro z.
  change ((z # 100) * 100)%Q with (z * 100 # 100)%Q.
  unfold rint. simpl Qnum. simpl Qden.
  rewrite Z.div_mul by discriminate. rewrite Z.mod_mul by discriminate.
  reflexivity.
Qed.

(** X12: rounding a row for display moves its total and its average
    earnings by at most 0.005, leaves category, conceptual group and
    impressions as they are, and rounding a rounded row changes
    nothing. *)
Theorem round_row_is_close_and_idempotent :
  forall r : CategoryAggregate,
    round_row (round_row r) = round_row r /\
    row_key (round_row r) = row_key r /\
    total_impressions (round_row r) = total_impressions r /\
    (avg_earnings r <= avg_earnings (round_row r) + (1 # 200))%Q /\
    (avg_earnings (round_row r) <= avg_earnings r + (1 # 200))%Q /\
    (forall q, total_earnings r = Some q ->
               exists q', total_earnings (round_row r) = Some q' /\
                          (q <= q' + (1 # 200))%Q /\ (q' <= q + (1 # 200))%Q).
Proof.
  intro r. split; [|split; [reflexivity|split; [reflexivity|]]].
  - destruct r as [g c t a i ep ct]. unfold round_row. simpl.
    rewrite round2_idempotent.
    destruct t, ep, ct; simpl; rewrite ?round2_idempotent; reflexivity.
  - simpl. destruct (round2_bounds (avg_earnings r)) as [B1 B2].
    split; [exact B1|]. split; [exact B2|].
    intros q E. simpl. rewrite E. simpl. exists (round2 q).
    split; [reflexivity|]. apply round2_bounds.
Qed.

(** ** The charts *)




Lemma filter_split_permutation {A : Type} (f : A -> bool) (l : list A) :
  Permutation (filter f l ++ filter (fun x => negb (f x)) l) l.
Proof.
  induction l as [|a l IH]; simpl; [apply perm_nil|].
  destruct (f a); simpl.
  - apply perm_skip. exact IH.
  - apply Permutation_sym. apply Permutation_cons_app.
    apply Permutation_sym. exact IH.
Qed.

(** X14: the charts of the second tab split the recommendations by
    Domain: every recommended row is in exactly one chart, a chart is
    drawn only for a domain type that has rows, its rows all carry that
    type and are in descending order of the chosen metric, and the
    In-Domain chart comes first.  This holds however the sort orders rows
    of equal metric. *)
Theorem domain_charts_split_the_recommendations :
  forall (sort_by : Sorter) (metric_choice : Metric)
         (recommended_df : list RecommendationEntry),
    sorts sort_by ->
    let charts := domain_charts sort_by metric_choice recommended_df in
    Permutation (flat_map snd charts) recommended_df /\
    Forall (fun chart =>
              snd chart <> [] /\
              Forall (fun entry => Domain entry = fst chart) (snd chart) /\
              descending (fun entry => y_col metric_choice (aggregate entry))
                (snd chart))
      charts /\
    (map fst charts = [In_Domain; Out_of_Domain] \/
     map fst charts = [In_Domain] \/ map fst charts = [Out_of_Domain] \/
     (charts = [] /\ recommended_df = [])).
Proof.
  intros sort_by m recs S charts.
  set (key := fun entry : RecommendationEntry => y_col m (aggregate entry)).
  set (ins := domain_df In_Domain recs). set (outs := domain_df Out_of_Domain recs).
  assert (P : Permutation (ins ++ outs) recs).
  { subst ins outs. unfold domain_df.
    rewrite (filter_ext (fun entry => DomainLabel_eqb (Domain entry) Out_of_Domain)
               (fun entry => negb (DomainLabel_eqb (Domain entry) In_Domain))).
    - apply filter_split_permutation.
    - intro entry. destruct (Domain entry); reflexivity. }
  assert (L : forall d, Forall (fun entry => Domain entry = d)
                          (sort_by _ key (domain_df d recs))).
  { intro d. apply Forall_forall. intros entry H.
    apply (proj1 (in_sorted sort_by key _ _ S)) in H.
    unfold domain_df in H. apply filter_In in H.
    destruct H as [_ H]. destruct (Domain entry), d; simpl in H; congruence. }
  pose proof (L In_Domain) as Lin. pose proof (L Out_of_Domain) as Lout.
  fold ins in Lin. fold outs in Lout. clear L.
  assert (N : forall l : list RecommendationEntry,
             is_empty l = false -> sort_by _ key l <> []).
  { intros l Hl E. assert (Z0 : l = []).
    { apply Permutation_nil. rewrite <- E. apply (S _ key l). }
    rewrite Z0 in Hl. discriminate. }
  assert (Y : forall l : list RecommendationEntry, is_empty l = true -> l = []).
  { intros [|x l] H; [reflexivity|discriminate]. }
  assert (C : charts =
              (if negb (is_empty ins) then [(In_Domain, sort_by _ key ins)] else []) ++
              (if negb (is_empty outs) then [(Out_of_Domain, sort_by _ key outs)] else [])).
  { subst charts. unfold domain_charts. simpl. rewrite app_nil_r. reflexivity. }
  rewrite C. clear C. clearbody ins outs.
  destruct (S _ key ins) as [Sin Din]. destruct (S _ key outs) as [Sout Dout].
  destruct (is_empty ins) eqn:Ei; destruct (is_empty outs) eqn:Eo;
    cbn [negb List.app flat_map snd fst map]; rewrite ?app_nil_r.
  - apply Y in Ei. apply Y in Eo. subst ins outs. simpl in P.
    split; [exact P|]. split; [constructor|].
    right. right. right. split; [reflexivity|].
    apply Permutation_nil. exact P.
  - apply Y in Ei. subst ins. simpl in P.
    split; [exact (Permutation_trans Sout P)|]. split.
    + constructor; [|constructor]. cbn [fst snd].
      split; [apply N; exact Eo|]. split; assumption.
    + right. right. left. reflexivity.
  - apply Y in Eo. subst outs. rewrite app_nil_r in P.
    split; [exact (Permutation_trans Sin P)|]. split.
    + constructor; [|constructor]. cbn [fst snd].
      split; [apply N; exact Ei|]. split; assumption.
    + right. left. reflexivity.
  - split; [|split].
    + eapply Permutation_trans; [|exact P]. apply Permutation_app; assumption.
    + constructor; [|constructor; [|constructor]]; cbn [fst snd].
      * split; [apply N; exact Ei|]. split; assumption.
      * split; [apply N; exact Eo|]. split; assumption.
    + left. reflexivity.
Qed.

Lemma domain_charts_split_the_recommendations_witness :
  sorts stable_sort /\
  Permutation
    (flat_map snd
       (domain_charts stable_sort Total_Earnings
          (recommend stable_sort sample_table [Some "Autos"] [Some "Vehicles"])))
    (recommend stable_sort sample_table [Some "Autos"] [Some "Vehicles"]).
Proof.
  split; [exact stable_sort_sorts|].
  exact (proj1 (domain_charts_split_the_recommendations stable_sort Total_Earnings
                  (recommend stable_sort sample_table [Some "Autos"]
                     [Some "Vehicles"])
                  stable_sort_sorts)).
Defined.

(** ** The summary metrics *)

Lemma Zsum_permutation (l l' : list Z) : Permutation l l' -> Zsum l = Zsum l'.
Proof.
  induction 1; simpl; lia.
Qed.

Lemma Qsum_permutation (l l' : list Q) : Permutation l l' -> (Qsum l == Qsum l')%Q.
Proof.
  induction 1 as [|x l l' P IH|x y l|l l' l'' P1 IH1 P2 IH2]; simpl.
  - reflexivity.
  - rewrite IH. reflexivity.
  - ring.
  - rewrite IH1. exact IH2.
Qed.

Lemma clean_permutation (l l' : list CategoryAggregate) :
  Permutation l l' -> Permutation (clean l) (clean l').
Proof.
  intro P. unfold clean, dropna_rows. do 2 apply filter_keeps_permutation. exact P.
Qed.

Lemma clean_aggregates (db : list Event) (s e : Z) (ks : list (cell * cell)) :
  clean (map (aggregate_group db s e) ks) =
  map (aggregate_group db s e) (filter named_key ks).
Proof.
  unfold clean, dropna_rows. rewrite !filter_map_comm, filter_twice.
  f_equal. apply filter_ext. intros [[c|] g]; reflexivity.
Qed.

Section SumsByKey.
Variable evs : list Event.

Lemma filter_none (p : Event -> bool) :
  (forall ev, In ev evs -> p ev = false) -> filter p evs = [].
Proof.
  induction evs as [|a l IH]; simpl; intro H; [reflexivity|].
  rewrite (H a (or_introl eq_refl)). apply IH. auto.
Qed.

Lemma key_not_twice (k : cell * cell) (ks : list (cell * cell)) (ev : Event) :
  ~ In k ks -> key_eqb (group_key ev) k = true ->
  existsb (key_eqb (group_key ev)) ks = true -> False.
Proof.
  intros N E X. apply key_eqb_eq in E. apply existsb_exists in X.
  destruct X as [k' [Hk' E']]. apply key_eqb_eq in E'. congruence.
Qed.

Lemma Zsum_filter_orb (f : Event -> Z) (p q : Event -> bool) :
  (forall ev, p ev = true -> q ev = true -> False) ->
  Zsum (map f (filter (fun ev => p ev || q ev) evs)) =
  Zsum (map f (filter p evs)) + Zsum (map f (filter q evs)).
Proof.
  intro D. induction evs as [|a l IH]; simpl; [reflexivity|].
  destruct (p a) eqn:Pa, (q a) eqn:Qa; simpl; try lia.
  exfalso. exact (D a Pa Qa).
Qed.

Lemma Zsum_by_key (f : Event -> Z) (ks : list (cell * cell)) :
  NoDup ks ->
  Zsum (map (fun k => Zsum (map f (filter (fun ev => key_eqb (group_key ev) k) evs))) ks) =
  Zsum (map f (filter (fun ev => existsb (key_eqb (group_key ev)) ks) evs)).
Proof.
  induction 1 as [|k ks Hk N IH]; simpl.
  - rewrite filter_none; [reflexivity|auto].
  - rewrite IH. symmetry. apply Zsum_filter_orb.
    intro ev. apply key_not_twice. exact Hk.
Qed.

Lemma Qsum_filter_orb (f : Event -> Q) (p q : Event -> bool) :
  (forall ev, p ev = true -> q ev = true -> False) ->
  (Qsum (map f (filter (fun ev => p ev || q ev) evs)) ==
   Qsum (map f (filter p evs)) + Qsum (map f (filter q evs)))%Q.
Proof.
  intro D. induction evs as [|a l IH]; simpl; [reflexivity|].
  destruct (p a) eqn:Pa, (q a) eqn:Qa; simpl; try rewrite IH; try ring.
  exfalso. exact (D a Pa Qa).
Qed.

Lemma Qsum_by_key (f : Event -> Q) (ks : list (cell * cell)) :
  NoDup ks ->
  (Qsum (map (fun k => Qsum (map f (filter (fun ev => key_eqb (group_key ev) k) evs))) ks) ==
   Qsum (map f (filter (fun ev => existsb (key_eqb (group_key ev)) ks) evs)))%Q.
Proof.
  induction 1 as [|k ks Hk N IH]; simpl.
  - rewrite filter_none; [reflexivity|auto].
  - rewrite IH. symmetry. apply Qsum_filter_orb.
    intro ev. apply key_not_twice. exact Hk.
Qed.
End SumsByKey.

Lemma named_events_of_named_keys (db : list Event) (s e : Z) :
  filter
    (fun ev =>
       existsb (key_eqb (group_key ev))
         (filter named_key (unique key_eqb (map group_key (selected db s e)))))
    (selected db s e) =
  filter named_event (selected db s e).
Proof.
  apply filter_ext_in. intros ev Hev.
  assert (K : In (group_key ev) (unique key_eqb (map group_key (selected db s e)))).
  { rewrite (in_unique_iff key_eqb key_eqb_eq). apply in_map. exact Hev. }
  assert (E : named_key (group_key ev) = named_event ev) by reflexivity.
  destruct (named_event ev) eqn:Nm.
  - apply existsb_exists. exists (group_key ev). split.
    + apply filter_In. split; assumption.
    + apply key_eqb_eq. reflexivity.
  - destruct (existsb _ _) eqn:X; [exfalso|reflexivity].
    apply existsb_exists in X. destruct X as [k [Hk Ek]].
    apply key_eqb_eq in Ek. subst k. apply filter_In in Hk.
    destruct Hk as [_ Hk]. congruence.
Qed.

(** X15: the Total Impressions metric is the sum of the impressions of
    the events of the window that have positive earnings and a category
    that is present and not "none"; the Total Earnings metric equals, as
    a number, the sum of the earnings of the same events.  Both are
    computed on the cleaned table, before rounding. *)
Theorem summary_metrics_sum_the_named_events :
  forall (db : list Event) (start_date end_date : Z),
    let category_df := clean (fetch_category_data db start_date end_date) in
    let events := filter named_event (selected db start_date end_date) in
    metric_total_impressions category_df = Zsum (map uniq_impr events) /\
    (metric_total_earnings category_df == Qsum (map est_earnings events))%Q.
Proof.
  intros db s e category_df events.
  set (keys := unique key_eqb (map group_key (selected db s e))).
  assert (P : Permutation category_df
                (map (aggregate_group db s e) (filter named_key keys))).
  { subst category_df. rewrite <- clean_aggregates. apply clean_permutation.
    unfold fetch_category_data. apply sort_desc_permutation. }
  assert (N : NoDup (filter named_key keys)).
  { apply NoDup_filter. apply NoDup_unique. exact key_eqb_eq. }
  split.
  - unfold metric_total_impressions.
    rewrite (Zsum_permutation _ _ (Permutation_map total_impressions P)).
    rewrite map_map. simpl. unfold sum_impressions, group_of.
    rewrite (Zsum_by_key (selected db s e) uniq_impr _ N).
    subst keys events. rewrite named_events_of_named_keys. reflexivity.
  - unfold metric_total_earnings.
    rewrite (Qsum_permutation _ _
               (Permutation_map
                  (fun r => match total_earnings r with Some q => q | None => 0%Q end)
                  P)).
    rewrite map_map. simpl. unfold sum_earnings, group_of.
    rewrite (Qsum_by_key (selected db s e) est_earnings _ N).
    subst keys events. rewrite named_events_of_named_keys. reflexivity.
Qed.

(** ** The third tab *)

Lemma empty_iff_no_member {A : Type} (l : list A) :
  l = [] <-> forall x, ~ In x l.
Proof.
  split.
  - intros -> x H. exact H.
  - intro H. destruct l as [|a l]; [reflexivity|].
    exfalso. apply (H a). left. reflexivity.
Qed.

Lemma partner_groups_empty_iff (db : list Event) (s e : Z) (p : string) :
  partner_groups db s e p = [] <->
  forall ev, In ev (selected_for_partner db s e p) -> ev_Conceptual_Group ev = None.
Proof.
  rewrite empty_iff_no_member. split.
  - intros H ev Hev. destruct (ev_Conceptual_Group ev) as [g|] eqn:G; [exfalso|reflexivity].
    apply (H (Some g)). apply in_partner_groups. split; [discriminate|eauto].
  - intros H g Hg. apply in_partner_groups in Hg.
    destruct Hg as [Hn [ev [Hev E]]]. rewrite (H ev Hev) in E. congruence.
Qed.

Lemma partner_categories_empty_iff (db : list Event) (s e : Z) (p : string) :
  partner_category_rows db s e p = [] <->
  forall ev, In ev (selected_for_partner db s e p) -> ev_category ev = None.
Proof.
  assert (M : partner_category_rows db s e p = [] <->
              map fst (partner_category_rows db s e p) = []).
  { destruct (partner_category_rows db s e p); simpl; split; congruence. }
  rewrite M, empty_iff_no_member. split.
  - intros H ev Hev. destruct (ev_category ev) as [c|] eqn:C; [exfalso|reflexivity].
    apply (H (Some c)). apply in_partner_categories. split; [discriminate|eauto].
  - intros H c Hc. apply in_partner_categories in Hc.
    destruct Hc as [Hn [ev [Hev E]]]. rewrite (H ev Hev) in E. congruence.
Qed.

Lemma is_empty_true {A : Type} (l : list A) : is_empty l = true <-> l = [].
Proof. destruct l; simpl; split; congruence. Qed.

(** X16: in a run that passes the range and no-data checks and whose
    selected partner has a plain name, the third tab warns that no
    conceptual group was found exactly when every event of that partner
    in the window with positive earnings has a null conceptual group, and
    warns that no category was found exactly when every such event has a
    null category. *)
Theorem third_tab_warnings
    (sort_by : Sorter) (engine : Engine)
    (db : list Event) (selectbox : list string -> option string)
    (start_date end_date : Z) :
  start_date <= end_date ->
  fetch_category_data db start_date end_date <> [] ->
  let selected_partner := the_selected_partner db selectbox start_date end_date in
  sql_plain (format_partner selected_partner) = true ->
  let trace := snd (run_app sort_by engine db selectbox start_date end_date) in
  (In (Display (warning_no_groups selected_partner)) trace <->
   forall ev, In ev db -> partner ev = format_partner selected_partner ->
              in_window start_date end_date ev = true ->
              positive_earnings ev = true -> ev_Conceptual_Group ev = None) /\
  (In (Display (warning_no_categories selected_partner)) trace <->
   forall ev, In ev db -> partner ev = format_partner selected_partner ->
              in_window start_date end_date ev = true ->
              positive_earnings ev = true -> ev_category ev = None).
Proof.
  intros V N sp Pl trace. subst trace.
  destruct (plain_recommended_df sort_by engine db selectbox start_date end_date Pl)
    as (U & G & _).
  rewrite (run_app_page sort_by engine db selectbox _ _ _ _ V N U G).
  cbv zeta. fold sp. simpl snd.
  set (p := format_partner sp) in *.
  assert (S : forall P : Event -> Prop,
             (forall ev, In ev (selected_for_partner db start_date end_date p) -> P ev) <->
             (forall ev, In ev db -> partner ev = p ->
                         in_window start_date end_date ev = true ->
                         positive_earnings ev = true -> P ev)).
  { intro P. split.
    - intros H ev H1 H2 H3 H4. apply H. apply in_selected_for_partner.
      split; [apply in_selected; tauto|exact H2].
    - intros H ev Hev. apply in_selected_for_partner in Hev.
      destruct Hev as [Hs Hp]. apply in_selected in Hs. apply H; tauto. }
  rewrite <- !S.
  rewrite <- partner_groups_empty_iff, <- partner_categories_empty_iff.
  rewrite <- !is_empty_true.
  destruct (is_empty (recommended_df _ _ _ _));
    destruct (is_empty (partner_groups db start_date end_date p));
    destruct (is_empty (partner_category_rows db start_date end_date p));
    simpl; split; split; intro H;
    repeat (destruct H as [H|H]; [discriminate H|]);
    try contradiction; try discriminate; try reflexivity; auto 10.
Qed.

Lemma third_tab_warnings_witness :
  1 <= 3 /\ fetch_category_data sample_db 1 3 <> [] /\
  In (Display (warning_no_groups (Some "cust")))
     (snd (run_app stable_sort rejecting_engine sample_db (pick "cust") 1 3)).
Proof.
  assert (V : 1 <= 3) by lia.
  assert (N : fetch_category_data sample_db 1 3 <> []) by (vm_compute; discriminate).
  assert (Pl : sql_plain
                 (format_partner (the_selected_partner sample_db (pick "cust") 1 3)) =
               true) by reflexivity.
  split; [exact V|]. split; [exact N|].
  apply (proj1 (third_tab_warnings stable_sort rejecting_engine sample_db
                  (pick "cust") 1 3 V N Pl)).
  intros ev I P W E. simpl in I.
  repeat (destruct I as [<-|I]; [first [discriminate P | reflexivity]|]).
  contradiction.
Defined.
